(** * pvpc: hourly electricity prices from the REE archive

    A shallow embedding of [pvpc/pvpc.py] and the properties of its
    fetch-and-parse pipeline.

    - Python [str] values are Rocq strings (one [ascii] per character, code
      points 0 to 255).
    - Python [float] is IEEE-754 binary64, given by [spec_float] at
      precision 53 and maximal exponent 1024 (the executable specification
      that the primitive floats follow).
    - The object returned by [ans.json()] is a value of [json].
    - Exceptions are values of [exn]; code that may raise returns
      [result A].
    - The network and the clock live in a [world] that the two entry points
      thread through. *)

From Stdlib Require Import ZArith String Ascii List Bool Lia.
From Stdlib Require Import Floats.SpecFloat Floats.PrimFloat Floats.FloatOps.
From stdpp Require Import gmap strings list fin_maps.

Local Open Scope Z_scope.

#[local] Set Warnings "-register-all,-inexact-float".

(** ** Exceptions and results *)

(** What a [ValueError] carries. *)
Inductive value_error :=
  | Message (msg : string)            (* raise ValueError(msg) *)
  | InvalidIntLiteral (s : string)    (* int(s) on a string that is no integer *)
  | InvalidFloatLiteral (s : string)  (* float(s) on a string that is no number *)
  | JSONDecodeError.                  (* ans.json() on a body that is not JSON *)

(** Modelled from the spec: [DateError] is imported from [pvpc.exceptions],
    which is not part of the sources at hand; the data-shape error is an
    exception of its own, distinguishable from the invalid-input error. *)
Inductive exn :=
  | DateError
  | ValueError (why : value_error)
  | KeyError (key : string)
  | TypeError
  | AttributeError
  | RequestException.                 (* requests.get could not get a response *)

Inductive exn_class :=
  | CDateError | CValueError | CKeyError | CTypeError | CAttributeError
  | CRequestException.

Definition class_of (e : exn) : exn_class :=
  match e with
  | DateError => CDateError
  | ValueError _ => CValueError
  | KeyError _ => CKeyError
  | TypeError => CTypeError
  | AttributeError => CAttributeError
  | RequestException => CRequestException
  end.

Inductive result (A : Type) :=
  | Ok (a : A)
  | Raise (e : exn).
Arguments Ok {A} a.
Arguments Raise {A} e.

(** Sequencing: an exception ends the computation.  With these instances
    [x ← r; k] runs [r] and, when it returns, [k] on its value. *)
#[global] Instance result_ret : MRet result := @Ok.
#[global] Instance result_bind : MBind result := fun A B k r =>
  match r with
  | Ok a => k a
  | Raise e => Raise e
  end.

(** ** Characters and strings *)

Definition chars (s : string) : list ascii := list_ascii_of_string s.

Definition code (c : ascii) : Z := Z.of_N (N_of_ascii c).

Definition is_digit (c : ascii) : bool := (48 <=? code c) && (code c <=? 57).

Definition digit_value (c : ascii) : Z := code c - 48.

(** The characters that [int] and [float] skip at both ends of their
    argument: tab, line feed, vertical tab, form feed, carriage return,
    space, and (beyond ASCII) next-line and no-break space. *)
Definition is_space (c : ascii) : bool :=
  ((9 <=? code c) && (code c <=? 13)) || (code c =? 32)
  || (code c =? 133) || (code c =? 160).

Fixpoint lstrip (l : list ascii) : list ascii :=
  match l with
  | c :: t => if is_space c then lstrip t else l
  | [] => []
  end.

Definition strip (l : list ascii) : list ascii :=
  rev (lstrip (rev (lstrip l))).

(** An optional sign in front. *)
Definition take_sign (l : list ascii) : bool * list ascii :=
  match l with
  | c :: t =>
      if Ascii.eqb c "-" then (true, t)
      else if Ascii.eqb c "+" then (false, t)
      else (false, l)
  | [] => (false, l)
  end.

(** [s.replace(old, new)] for a one-character [old]: every occurrence is
    replaced, left to right. *)
Fixpoint replace (old : ascii) (new : string) (s : string) : string :=
  match s with
  | EmptyString => EmptyString
  | String c t =>
      if Ascii.eqb c old then new +:+ replace old new t
      else String c (replace old new t)
  end.

(** ** [int(str)] *)

(** After a first digit: more digits, each optionally preceded by one
    underscore. *)
Fixpoint int_digits (acc : Z) (l : list ascii) : option Z :=
  match l with
  | [] => Some acc
  | c :: t =>
      if is_digit c then int_digits (10 * acc + digit_value c) t
      else if Ascii.eqb c "_" then
        match t with
        | d :: t' =>
            if is_digit d then int_digits (10 * acc + digit_value d) t'
            else None
        | [] => None
        end
      else None
  end.

Definition int_of_chars (l : list ascii) : option Z :=
  let '(neg, l1) := take_sign (strip l) in
  match l1 with
  | d :: t =>
      if is_digit d then
        match int_digits (digit_value d) t with
        | Some n => Some (if neg then - n else n)
        | None => None
        end
      else None
  | [] => None
  end.

(** [int(s)] in base ten.  (Recent interpreters also refuse literals of
    more than 4300 digits; the program only passes two characters.) *)
Definition int_of_str (s : string) : result Z :=
  match int_of_chars (chars s) with
  | Some n => Ok n
  | None => Raise (ValueError (InvalidIntLiteral s))
  end.


(** ** [float(str)] *)

Definition float64 : Type := spec_float.

(** [n / d] rounded to the nearest binary64, ties to even, for positive
    [n] and [d]; a zero of the given sign otherwise. *)
Definition round_ratio (neg : bool) (n d : Z) : float64 :=
  match n, d with
  | Zpos pn, Zpos pd =>
      SFdiv prec emax (S754_finite neg pn 0) (S754_finite false pd 0)
  | _, _ => S754_zero neg
  end.

(** The float nearest to [m * 10 ^ e]. *)
Definition float_of_decimal (neg : bool) (m e : Z) : float64 :=
  round_ratio neg (m * 10 ^ Z.max e 0) (10 ^ Z.max (- e) 0).

(** An integer is converted exactly when it fits. *)
Definition float_of_int (n : Z) : float64 := binary_normalize prec emax n 0 false.

Definition float_div (x y : float64) : float64 := SFdiv prec emax x y.

(** Underscores are accepted between two digits only; they are removed
    before the number is read. *)
Fixpoint remove_underscores (prev : ascii) (l : list ascii) : option (list ascii) :=
  match l with
  | [] => if Ascii.eqb prev "_" then None else Some []
  | c :: t =>
      if Ascii.eqb c "_" then
        if is_digit prev then remove_underscores c t else None
      else if Ascii.eqb prev "_" && negb (is_digit c) then None
      else option_map (cons c) (remove_underscores c t)
  end.

Definition lower (c : ascii) : ascii :=
  if (65 <=? code c) && (code c <=? 90)
  then ascii_of_N (N_of_ascii c + 32) else c.

(** [inf], [infinity] and [nan], in any case. *)
Definition inf_or_nan (neg : bool) (l : list ascii) : option float64 :=
  let w := string_of_list_ascii (map lower l) in
  if String.eqb w "inf" || String.eqb w "infinity" then Some (S754_infinity neg)
  else if String.eqb w "nan" then Some S754_nan
  else None.

(** The longest prefix of digits, and what follows it. *)
Fixpoint span_digits (l : list ascii) : list ascii * list ascii :=
  match l with
  | c :: t =>
      if is_digit c then let '(ds, r) := span_digits t in (c :: ds, r)
      else ([], l)
  | [] => ([], [])
  end.

Definition digits_value (ds : list ascii) : Z :=
  fold_left (fun acc c => 10 * acc + digit_value c) ds 0.

(** The exponent part: nothing, or [e] or [E], an optional sign and at
    least one digit, up to the end. *)
Definition exponent (l : list ascii) : option Z :=
  match l with
  | [] => Some 0
  | c :: t =>
      if Ascii.eqb (lower c) "e" then
        let '(neg, t1) := take_sign t in
        match span_digits t1 with
        | (d :: ds, []) =>
            let n := digits_value (d :: ds) in Some (if neg then - n else n)
        | _ => None
        end
      else None
  end.

(** Digits, an optional point and more digits (one digit at least), and an
    optional exponent. *)
Definition decimal (neg : bool) (l : list ascii) : option float64 :=
  let '(ip, r1) := span_digits l in
  let '(fp, r2) :=
    match r1 with
    | "."%char :: t => span_digits t
    | _ => ([], r1)
    end in
  match ip ++ fp with
  | [] => None
  | _ :: _ =>
      match exponent r2 with
      | Some e =>
          Some (float_of_decimal neg (digits_value (ip ++ fp))
                  (e - Z.of_nat (length fp)))
      | None => None
      end
  end.

Definition float_of_chars (l : list ascii) : option float64 :=
  match remove_underscores " " (strip l) with
  | Some l1 =>
      let '(neg, l2) := take_sign l1 in
      match inf_or_nan neg l2 with
      | Some x => Some x
      | None => decimal neg l2
      end
  | None => None
  end.

Definition float_of_str (s : string) : result float64 :=
  match float_of_chars (chars s) with
  | Some x => Ok x
  | None => Raise (ValueError (InvalidFloatLiteral s))
  end.

(** ** The decoded response *)

(** What [ans.json()] can return.  A [dict] keeps its items in insertion
    order; a key is looked up at its first item. *)
Inductive json :=
  | JNull
  | JBool (b : bool)
  | JInt (n : Z)
  | JFloat (x : float64)
  | JStr (s : string)
  | JList (l : list json)
  | JDict (items : list (string * json)).

Fixpoint dict_get (items : list (string * json)) (key : string) : option json :=
  match items with
  | [] => None
  | (k, v) :: rest => if String.eqb k key then Some v else dict_get rest key
  end.

(** [obj[key]] for a string [key]: only a [dict] can be indexed by a string. *)
Definition getitem (obj : json) (key : string) : result json :=
  match obj with
  | JDict items =>
      match dict_get items key with
      | Some v => Ok v
      | None => Raise (KeyError key)
      end
  | _ => Raise TypeError
  end.

(** The values that [for x in obj] goes through: the elements of a list,
    the keys of a dict, the characters of a string. *)
Definition iterate (obj : json) : result (list json) :=
  match obj with
  | JList l => Ok l
  | JDict items => Ok (map JStr (remove_dups (map fst items)))
  | JStr s => Ok (map (fun c => JStr (String c EmptyString)) (chars s))
  | _ => Raise TypeError
  end.

(** ** The rate catalog *)

Definition AVAILABLE_RATES : list string := ["GEN"; "NOC"; "VHC"].

Definition REE_URL : string := "https://api.esios.ree.es/".

(** ** The parser *)

(** The value stored for one hour: one price when a rate was asked for, a
    dict from rate to price otherwise. *)
Inductive price :=
  | Price (x : float64)
  | Prices (by_rate : gmap string float64).

(** [answer['PVPC']] is evaluated for its [KeyError] only. *)
Definition check_valid_answer (answer : json) : result unit :=
  match getitem answer "PVPC" with
  | Ok _ => Ok tt
  | Raise (KeyError _) => Raise DateError
  | Raise e => Raise e
  end.

(** [int(hour['Hora'][:2])]: a slice of a string is a string, a slice of a
    list is a list (which [int] refuses), nothing else can be sliced (a dict
    label is a [TypeError] as long as slices cannot be hashed, a [KeyError]
    in interpreters where they can; no price archive has such labels). *)
Definition parsed_time_in_answer_from_ree (hour : json) : result Z :=
  label ← getitem hour "Hora";
  match label with
  | JStr s => int_of_str (substring 0 2 s)
  | _ => Raise TypeError
  end.

(** [float(price_str.replace(',','.')) / 1000]: only a string has
    [replace]. *)
Definition price_from_ree_into_float (price_str : json) : result float64 :=
  match price_str with
  | JStr s =>
      x ← float_of_str (replace "," "." s);
      Ok (float_div x (float_of_int 1000))
  | _ => Raise AttributeError
  end.

(** [{a_rate: price_from_ree_into_float(hour[a_rate]) for a_rate in rates}] *)
Fixpoint all_rates (hour : json) (rates : list string)
    : result (gmap string float64) :=
  match rates with
  | [] => Ok ∅
  | a_rate :: rest =>
      v ← getitem hour a_rate;
      x ← price_from_ree_into_float v;
      d ← all_rates hour rest;
      Ok (<[a_rate := x]> d)
  end.

Definition price_of (hour : json) (rate : option string) : result price :=
  match rate with
  | None => d ← all_rates hour AVAILABLE_RATES; Ok (Prices d)
  | Some r => v ← getitem hour r; x ← price_from_ree_into_float v; Ok (Price x)
  end.

(** The body of the [for] loop, run over the hours in order. *)
Fixpoint parse_hours (hours : list json) (rate : option string)
    (parsed_answer : gmap Z price) : result (gmap Z price) :=
  match hours with
  | [] => Ok parsed_answer
  | hour :: rest =>
      p ← price_of hour rate;
      k ← parsed_time_in_answer_from_ree hour;
      parse_hours rest rate (<[k := p]> parsed_answer)
  end.

Definition parse_answer_from_ree (answer : json) (rate : option string)
    : result (gmap Z price) :=
  _ ← check_valid_answer answer;
  pvpc ← getitem answer "PVPC";
  hours ← iterate pvpc;
  parse_hours hours rate ∅.

(** ** Dates, the network and the clock *)

(** A [datetime]: year 1 to 9999, month 1 to 12, day 1 to 31, and a time of
    day. *)
Record datetime := Datetime {
  dt_year : Z; dt_month : Z; dt_day : Z;
  dt_hour : Z; dt_minute : Z; dt_second : Z; dt_microsecond : Z
}.

Definition digit_char (n : Z) : ascii := ascii_of_N (Z.to_N (48 + n mod 10)).

Definition pad2 (n : Z) : string :=
  String (digit_char (n / 10)) (String (digit_char n) EmptyString).

Definition pad4 (n : Z) : string := pad2 (n / 100) +:+ pad2 n.

(** [date.strftime('%Y-%m-%d')]: the time of day is not printed.  (For a
    year below 1000 the padding of [%Y] is the C library's choice.) *)
Definition strftime_Y_m_d (date : datetime) : string :=
  pad4 (dt_year date) +:+ "-" +:+ pad2 (dt_month date) +:+ "-"
  +:+ pad2 (dt_day date).

Record request := Request {
  url : string;
  params : list (string * string)
}.

(** What the program reads of a response: its status, and what
    [ans.json()] gives (an exception when the body is not JSON). *)
Record response := Response {
  status_code : Z;
  body_json : result json
}.

(** The outside world: the clock that [datetime.today()] reads, how the
    network answers a request (with a response, or with an exception when
    there is none), and the requests sent so far. *)
Record world := World {
  today : datetime;
  server : request -> result response;
  sent : list request
}.

Definition requests_get (u : string) (ps : list (string * string)) (w : world)
    : result response * world :=
  let req := Request u ps in
  (server w req, World (today w) (server w) (sent w ++ [req])).

(** ** The entry points *)

Definition check_requested_rate (rate : string) : result unit :=
  if bool_decide (rate ∈ AVAILABLE_RATES) then Ok tt
  else Raise (ValueError (Message ("The rate " +:+ rate +:+ " is not valid"))).

(** What [get_day_prices] returns: the parsed mapping, or a boolean. *)
Inductive returned :=
  | Mapping (m : gmap Z price)
  | Boolean (b : bool).

Definition day_request (date : datetime) : request :=
  Request (REE_URL +:+ "archives/70/download_json")
          [("date", strftime_Y_m_d date)].

Definition get_day_prices (date : datetime) (rate : option string) (w : world)
    : result returned * world :=
  match (match rate with
         | Some r => check_requested_rate r
         | None => Ok tt
         end) with
  | Raise e => (Raise e, w)
  | Ok _ =>
      let '(got, w1) :=
        requests_get (REE_URL +:+ "archives/70/download_json")
                     [("date", strftime_Y_m_d date)] w in
      match got with
      | Raise e => (Raise e, w1)
      | Ok ans =>
          if status_code ans =? 200 then
            (j ← body_json ans;
             m ← parse_answer_from_ree j rate;
             Ok (Mapping m), w1)
          else (Ok (Boolean false), w1)
      end
  end.

Definition get_today_prices (rate : option string) (w : world)
    : result returned * world :=
  get_day_prices (today w) rate w.

(** ** The expected shape of a response *)

(** An hour label starts with the two digits of its hour (["07-08"]). *)
Definition is_hour_label (s : string) : bool :=
  match chars s with
  | d1 :: d2 :: _ => is_digit d1 && is_digit d2
  | _ => false
  end.

(** A price is a decimal numeral with a comma: digits, then possibly a
    comma and more digits. *)
Definition is_price_string (s : string) : bool :=
  match span_digits (chars s) with
  | (_ :: _, []) => true
  | (_ :: _, c :: t) =>
      Ascii.eqb c ","
      && match span_digits t with
         | (_ :: _, []) => true
         | _ => false
         end
  | _ => false
  end.

Definition has_price (items : list (string * json)) (a_rate : string) : bool :=
  match dict_get items a_rate with
  | Some (JStr s) => is_price_string s
  | _ => false
  end.

Definition label_of (hour : json) : option string :=
  match hour with
  | JDict items =>
      match dict_get items "Hora" with
      | Some (JStr s) => Some s
      | _ => None
      end
  | _ => None
  end.

(** An hourly record: an object with an hour label and one price string
    for each rate of the catalog. *)
Definition well_formed_record (hour : json) : bool :=
  match hour with
  | JDict items =>
      match label_of hour with
      | Some s => is_hour_label s
      | None => false
      end
      && forallb (has_price items) AVAILABLE_RATES
  | _ => false
  end.

(** The list under ['PVPC'], when the payload is an object that has one. *)
Definition records (answer : json) : option (list json) :=
  match answer with
  | JDict items =>
      match dict_get items "PVPC" with
      | Some (JList hours) => Some hours
      | _ => None
      end
  | _ => None
  end.

Definition well_formed (answer : json) : bool :=
  match records answer with
  | Some hours => forallb well_formed_record hours
  | None => false
  end.

(** No rate, or a rate of the catalog. *)
Definition valid_rate (rate : option string) : bool :=
  match rate with
  | None => true
  | Some r => bool_decide (r ∈ AVAILABLE_RATES)
  end.

(** ** Notions used in the statements *)

Definition point_for_comma (c : ascii) : ascii :=
  if Ascii.eqb c "," then "."%char else c.

(** The hour labels of the records of a payload, in order. *)
Definition hour_labels (answer : json) : list string :=
  match records answer with
  | Some hours => omap label_of hours
  | None => []
  end.

(** The integer read from the first two characters of a label. *)
Definition label_hour (s : string) : option Z :=
  match int_of_str (substring 0 2 s) with
  | Ok k => Some k
  | Raise _ => None
  end.

(** An hour label whose two digits are an hour of the day, 00 to 23. *)
Definition is_day_hour_label (s : string) : bool :=
  match chars s with
  | d1 :: d2 :: _ =>
      is_digit d1 && is_digit d2
      && (10 * digit_value d1 + digit_value d2 <=? 23)
  | _ => false
  end.

(** Two records that may differ in anything but the hour label and the
    field of rate [r]. *)
Definition same_for_rate (r : string) (hour1 hour2 : json) : Prop :=
  match hour1, hour2 with
  | JDict items1, JDict items2 =>
      dict_get items1 "Hora" = dict_get items2 "Hora"
      /\ dict_get items1 r = dict_get items2 r
  | _, _ => hour1 = hour2
  end.

(** Two moments of the same calendar day. *)
Definition same_day (d1 d2 : datetime) : Prop :=
  dt_year d1 = dt_year d2 /\ dt_month d1 = dt_month d2
  /\ dt_day d1 = dt_day d2.

(** The payload is an object with a field of that name. *)
Definition has_field (answer : json) (key : string) : bool :=
  match answer with
  | JDict items =>
      match dict_get items key with
      | Some _ => true
      | None => false
      end
  | _ => false
  end.

(** The fields the parser reads a price from. *)
Definition needed (rate : option string) : list string :=
  match rate with
  | Some r => [r]
  | None => AVAILABLE_RATES
  end.

Definition lacks (items : list (string * json)) (key : string) : bool :=
  match dict_get items key with
  | Some _ => false
  | None => true
  end.

(** The record is an object without one of the needed price fields. *)
Definition lacks_price (rate : option string) (hour : json) : bool :=
  match hour with
  | JDict items => existsb (lacks items) (needed rate)
  | _ => false
  end.

(** Every price field that the record has holds a price string. *)
Definition prices_present_ok (rate : option string) (hour : json) : bool :=
  match hour with
  | JDict items =>
      forallb (fun a => lacks items a || has_price items a) (needed rate)
  | _ => false
  end.

(** ** Example payloads and worlds *)

Definition hourly (label gen noc vhc : string) : json :=
  JDict [("Dia", JStr "25/10/2020"); ("Hora", JStr label);
         ("GEN", JStr gen); ("NOC", JStr noc); ("VHC", JStr vhc)].

(** The first hours of an ordinary day. *)
Definition morning : json :=
  JDict [("PVPC", JList [hourly "00-01" "123,450" "70,10" "61,25";
                           hourly "01-02" "118,23" "65,02" "58,90"])].

(** The same hours with other prices for the rates other than [NOC]. *)
Definition morning_other_rates : json :=
  JDict [("PVPC", JList [hourly "00-01" "99,999" "70,10" "1,5";
                           hourly "01-02" "7" "65,02" "45,67"])].

(** The last hours of the day the clocks go back, which has 25 of them. *)
Definition long_day_evening : json :=
  JDict [("PVPC", JList [hourly "23-24" "109,18" "62,40" "66,08";
                           hourly "24-25" "108,31" "62,02" "65,69"])].

(** What the archive answers for a day it has no prices for. *)
Definition no_prices : json :=
  JDict [("message", JStr "No values for specified archive")].

(** An hour whose first price is not a number, then an hour without
    prices. *)
Definition gap_then_missing : json :=
  JDict [("PVPC", JList [hourly "00-01" "n/a" "70,10" "61,25";
                           JDict [("Dia", JStr "25/10/2020");
                                  ("Hora", JStr "01-02")]])].

(** An hour with prices, then an hour without the [VHC] price. *)
Definition vhc_missing : json :=
  JDict [("PVPC", JList [hourly "00-01" "123,450" "70,10" "61,25";
                           JDict [("Dia", JStr "25/10/2020");
                                  ("Hora", JStr "01-02");
                                  ("GEN", JStr "118,23");
                                  ("NOC", JStr "65,02")]])].

(** An archive that has the prices of 25 October 2020 and answers 404 for
    any other day. *)
Definition archive (req : request) : result response :=
  match params req with
  | [(_, d)] =>
      if String.eqb d "2020-10-25" then Ok (Response 200 (Ok morning))
      else Ok (Response 404 (Raise (ValueError JSONDecodeError)))
  | _ => Raise RequestException
  end.

Definition oct_25_morning : world :=
  World (Datetime 2020 10 25 9 30 0 0) archive [].

Definition oct_25_evening : world :=
  World (Datetime 2020 10 25 21 45 10 0) archive
        [day_request (Datetime 2020 10 25 9 30 0 0)].

(** ** Notions used for the further properties *)

(** What one record adds to the mapping: its hour and its price, the price
    being read first. *)
Definition entry_of (rate : option string) (hour : json) : result (Z * price) :=
  p ← price_of hour rate;
  k ← parsed_time_in_answer_from_ree hour;
  Ok (k, p).

(** The hour of a record, when it has one. *)
Definition key_of (hour : json) : option Z :=
  match parsed_time_in_answer_from_ree hour with
  | Ok k => Some k
  | Raise _ => None
  end.

(** A date whose year prints with four digits. *)
Definition four_digit_year (d : datetime) : bool :=
  (1000 <=? dt_year d) && (dt_year d <=? 9999)
  && (1 <=? dt_month d) && (dt_month d <=? 12)
  && (1 <=? dt_day d) && (dt_day d <=? 31).

(** A record the loop gets through: an object whose label is a string
    with an integer in its first two characters, and whose needed price
    fields are strings that read as floats once the commas are points. *)
Definition readable (rate : option string) (hour : json) : Prop :=
  exists fields label k,
    hour = JDict fields
    /\ dict_get fields "Hora" = Some (JStr label)
    /\ int_of_str (substring 0 2 label) = Ok k
    /\ forall a, a ∈ needed rate ->
         exists s x, dict_get fields a = Some (JStr s)
                     /\ float_of_str (replace "," "." s) = Ok x.

(** The price of one rate in what is stored for an hour. *)
Definition rate_of (r : string) (p : price) : price :=
  match p with
  | Prices by_rate =>
      match by_rate !! r with
      | Some x => Price x
      | None => p
      end
  | Price _ => p
  end.

(** A payload whose labels are short: one has a sign, one a single digit
    and a space. *)
Definition odd_labels : json :=
  JDict [("PVPC", JList [hourly "-9" "123,450" "70,10" "61,25";
                           hourly "7 to 8" "118,23" "65,02" "58,90"])].

(** A payload whose price list is an object, not a list. *)
Definition prices_by_hour : json :=
  JDict [("PVPC", JDict [("00-01", JStr "123,450")])].

(** A payload whose second record gives its prices as numbers. *)
Definition numeric_prices : json :=
  JDict [("PVPC", JList [hourly "00-01" "123,450" "70,10" "61,25";
                           JDict [("Hora", JStr "01-02");
                                  ("GEN", JInt 118); ("NOC", JInt 65);
                                  ("VHC", JInt 59)]])].

(** The hours of [morning], the later one first. *)
Definition morning_reversed : json :=
  JDict [("PVPC", JList [hourly "01-02" "118,23" "65,02" "58,90";
                           hourly "00-01" "123,450" "70,10" "61,25"])].

(** A payload that gives the first hour twice, with different prices. *)
Definition hour_given_twice : json :=
  JDict [("PVPC", JList [hourly "00-01" "123,450" "70,10" "61,25";
                           hourly "01-02" "118,23" "65,02" "58,90";
                           hourly "00-01" "99,999" "70,11" "1,5"])].

(** ** The built-in conversions on examples *)

Example int_of_str_hours :
  int_of_str "07" = Ok 7 /\ int_of_str "23" = Ok 23
  /\ int_of_str " 5" = Ok 5 /\ int_of_str "-3" = Ok (-3)
  /\ int_of_str "1_0" = Ok 10
  /\ int_of_str "7-" = Raise (ValueError (InvalidIntLiteral "7-"))
  /\ int_of_str "+ 1" = Raise (ValueError (InvalidIntLiteral "+ 1")).
Proof. repeat split. Qed.

(** The numerals are read as the interpreter of the primitive floats reads
    them: to the nearest float, to infinity beyond the largest one, to
    zero or the smallest float at the other end. *)
Example float_of_str_nearest :
  float_of_str "0.1" = Ok (Prim2SF 0.1%float)
  /\ float_of_str "70.10" = Ok (Prim2SF 70.10%float)
  /\ float_of_str " 1_0.5e2 " = Ok (Prim2SF 1050%float)
  /\ float_of_str "9007199254740993" = Ok (Prim2SF 9007199254740992%float)
  /\ float_of_str "1.7976931348623159e308" = Ok (S754_infinity false)
  /\ float_of_str "2.4e-324" = Ok (S754_zero false)
  /\ float_of_str "2.5e-324" = Ok (Prim2SF 5e-324%float)
  /\ float_of_str "-Infinity" = Ok (S754_infinity true)
  /\ float_of_str "nan" = Ok S754_nan.
Proof. repeat split; vm_compute; reflexivity. Qed.

Example float_of_str_refused :
  Forall (fun s => float_of_str s = Raise (ValueError (InvalidFloatLiteral s)))
         ["12,5"; "1.2.3"; "1e"; "."; "1_"; "1._5"; "infinit"; "- 1"; "n/a"].
Proof. repeat constructor. Qed.

Example strftime_pads : strftime_Y_m_d (Datetime 2020 3 7 10 11 12 0) = "2020-03-07".
Proof. reflexivity. Qed.

(** ** Facts about characters *)

Ltac by_char c :=
  destruct c as [[] [] [] [] [] [] [] []]; try discriminate; try reflexivity.

Lemma digit_not_space c : is_digit c = true -> is_space c = false.
Proof. by_char c. Qed.

Lemma digit_not_underscore c : is_digit c = true -> Ascii.eqb c "_" = false.
Proof. by_char c. Qed.

Lemma digit_not_comma c : is_digit c = true -> Ascii.eqb c "," = false.
Proof. by_char c. Qed.

Lemma digit_not_sign c :
  is_digit c = true -> Ascii.eqb c "-" = false /\ Ascii.eqb c "+" = false.
Proof. by_char c; intros _; split; reflexivity. Qed.

Lemma digit_not_letter c :
  is_digit c = true ->
  Ascii.eqb (lower c) "i" = false /\ Ascii.eqb (lower c) "n" = false.
Proof. by_char c; intros _; split; reflexivity. Qed.

Lemma digit_value_range c : is_digit c = true -> 0 <= digit_value c <= 9.
Proof. by_char c; intros _; vm_compute; split; discriminate. Qed.

Lemma take_sign_digit c t :
  is_digit c = true -> take_sign (c :: t) = (false, c :: t).
Proof.
  intros Hc. destruct (digit_not_sign c Hc) as [Hm Hp].
  unfold take_sign. now rewrite Hm, Hp.
Qed.

(** ** Stripping *)

Lemma lstrip_no_space l :
  Forall (fun c => is_space c = false) l -> lstrip l = l.
Proof. intros H. destruct H as [|c t Hc _]; simpl; [reflexivity | now rewrite Hc]. Qed.

Lemma strip_no_space l :
  Forall (fun c => is_space c = false) l -> strip l = l.
Proof.
  intros H. unfold strip. rewrite (lstrip_no_space l H).
  rewrite lstrip_no_space by now apply Forall_rev.
  apply rev_involutive.
Qed.

Lemma remove_underscores_none prev l :
  Ascii.eqb prev "_" = false ->
  Forall (fun c => Ascii.eqb c "_" = false) l ->
  remove_underscores prev l = Some l.
Proof.
  intros Hp H. revert prev Hp.
  induction H as [|c t Hc _ IH]; intros prev Hp; simpl.
  - now rewrite Hp.
  - rewrite Hc, Hp. simpl. now rewrite (IH c Hc).
Qed.

(** ** Runs of digits *)

Lemma span_digits_app l :
  fst (span_digits l) ++ snd (span_digits l) = l.
Proof.
  induction l as [|c t IH]; simpl; [reflexivity|].
  destruct (is_digit c); [|reflexivity].
  destruct (span_digits t) as [ds r]. simpl in *. now rewrite IH.
Qed.

Lemma span_digits_digits l : Forall (fun c => is_digit c = true) (fst (span_digits l)).
Proof.
  induction l as [|c t IH]; simpl; [constructor|].
  destruct (is_digit c) eqn:Hc; [|constructor].
  destruct (span_digits t) as [ds r]. simpl in *. now constructor.
Qed.

Lemma span_digits_all ds r :
  Forall (fun c => is_digit c = true) ds ->
  match r with c :: _ => is_digit c = false | [] => True end ->
  span_digits (ds ++ r) = (ds, r).
Proof.
  intros H Hr. induction H as [|c t Hc _ IH]; simpl.
  - destruct r as [|c r]; [reflexivity|]. simpl. now rewrite Hr.
  - now rewrite Hc, IH.
Qed.

(** ** Hour labels and prices convert *)

Lemma int_of_two_digits d1 d2 :
  is_digit d1 = true -> is_digit d2 = true ->
  int_of_chars [d1; d2] = Some (10 * digit_value d1 + digit_value d2).
Proof.
  intros H1 H2. unfold int_of_chars.
  rewrite strip_no_space
    by (repeat constructor; now apply digit_not_space).
  rewrite take_sign_digit by assumption.
  rewrite H1. simpl. now rewrite H2.
Qed.

Lemma hour_label_int s :
  is_hour_label s = true ->
  exists d1 d2 t,
    s = String d1 (String d2 t) /\ is_digit d1 = true /\ is_digit d2 = true
    /\ int_of_str (substring 0 2 s) = Ok (10 * digit_value d1 + digit_value d2).
Proof.
  unfold is_hour_label.
  destruct s as [|d1 [|d2 t]]; simpl; try discriminate.
  intros [H1 H2]%andb_prop. exists d1, d2, t.
  repeat split; try assumption.
  unfold int_of_str, chars.
  replace (substring 0 0 t) with EmptyString by (now destruct t).
  simpl. now rewrite int_of_two_digits.
Qed.

Lemma chars_replace_comma s :
  chars (replace "," "." s) = map point_for_comma (chars s).
Proof.
  induction s as [|c t IH]; simpl; [reflexivity|].
  unfold point_for_comma at 1.
  destruct (Ascii.eqb c ","); simpl; now rewrite <- IH.
Qed.

Lemma map_point_digits ds :
  Forall (fun c => is_digit c = true) ds -> map point_for_comma ds = ds.
Proof.
  induction 1 as [|c t Hc _ IH]; simpl; [reflexivity|].
  unfold point_for_comma at 1. now rewrite (digit_not_comma c Hc), IH.
Qed.

Lemma inf_or_nan_digit neg c t :
  is_digit c = true -> inf_or_nan neg (c :: t) = None.
Proof.
  intros Hc. destruct (digit_not_letter c Hc) as [Hi Hn].
  unfold inf_or_nan. simpl. now rewrite Hi, Hn.
Qed.

(** A numeral [ip.fp] is read as the float nearest to it. *)
Lemma float_of_chars_point c ip fp :
  Forall (fun c => is_digit c = true) (c :: ip) ->
  Forall (fun c => is_digit c = true) fp ->
  float_of_chars ((c :: ip) ++ "."%char :: fp)
  = Some (float_of_decimal false (digits_value ((c :: ip) ++ fp))
            (0 - Z.of_nat (length fp))).
Proof.
  intros Hip Hfp. unfold float_of_chars.
  assert (Hall : Forall (fun c => is_digit c = true \/ c = "."%char)
                   ((c :: ip) ++ "."%char :: fp)).
  { apply Forall_app. split; [|constructor; [now right|]];
      (eapply Forall_impl; [eassumption|]); now left. }
  rewrite strip_no_space.
  2:{ eapply Forall_impl; [exact Hall|]. intros a [Ha| ->];
        [now apply digit_not_space | reflexivity]. }
  rewrite remove_underscores_none; [|reflexivity|].
  2:{ eapply Forall_impl; [exact Hall|]. intros a [Ha| ->];
        [now apply digit_not_underscore | reflexivity]. }
  inversion Hip as [|? ? Hc Hip']; subst.
  simpl app. rewrite take_sign_digit, inf_or_nan_digit by assumption.
  unfold decimal.
  change (c :: ip ++ "."%char :: fp) with ((c :: ip) ++ "."%char :: fp).
  rewrite (span_digits_all (c :: ip) ("."%char :: fp) Hip) by reflexivity.
  replace (span_digits fp) with (fp, @nil ascii).
  2:{ symmetry. rewrite <- (app_nil_r fp) at 1. now apply span_digits_all. }
  reflexivity.
Qed.

(** A numeral without a point is read as the float nearest to it. *)
Lemma float_of_chars_digits c ip :
  Forall (fun c => is_digit c = true) (c :: ip) ->
  float_of_chars (c :: ip)
  = Some (float_of_decimal false (digits_value (c :: ip)) 0).
Proof.
  intros Hip. unfold float_of_chars.
  rewrite strip_no_space
    by (eapply Forall_impl; [exact Hip|]; apply digit_not_space).
  rewrite remove_underscores_none; [|reflexivity|].
  2:{ eapply Forall_impl; [exact Hip|]. apply digit_not_underscore. }
  inversion Hip as [|? ? Hc Hip']; subst.
  rewrite take_sign_digit, inf_or_nan_digit by assumption.
  unfold decimal.
  replace (span_digits (c :: ip)) with (c :: ip, @nil ascii).
  2:{ symmetry. rewrite <- (app_nil_r (c :: ip)) at 1. now apply span_digits_all. }
  simpl. now rewrite app_nil_r.
Qed.

Lemma price_string_parts s :
  is_price_string s = true ->
  exists c ip fp,
    Forall (fun c => is_digit c = true) (c :: ip)
    /\ Forall (fun c => is_digit c = true) fp
    /\ (chars s = c :: ip /\ fp = []
        \/ chars s = (c :: ip) ++ ","%char :: fp /\ fp <> []).
Proof.
  unfold is_price_string.
  pose proof (span_digits_app (chars s)) as Happ.
  pose proof (span_digits_digits (chars s)) as Hds.
  destruct (span_digits (chars s)) as [[|c ip] r]; simpl in *; try discriminate.
  destruct r as [|a t].
  - intros _. exists c, ip, []. rewrite app_nil_r in Happ. auto.
  - intros [Ha Ht]%andb_prop. apply Ascii.eqb_eq in Ha. subst a.
    pose proof (span_digits_app t) as Happ'.
    pose proof (span_digits_digits t) as Hds'.
    destruct (span_digits t) as [[|c' fp] [|? ?]]; simpl in *; try discriminate.
    rewrite app_nil_r in Happ'. subst t.
    exists c, ip, (c' :: fp). split; [assumption|]. split; [assumption|].
    right. split; [now rewrite <- Happ | discriminate].
Qed.

(** A price string converts: its comma read as a point, the numeral
    rounded to the nearest float, the float divided by 1000. *)
Lemma price_string_converts s :
  is_price_string s = true ->
  exists m e,
    price_from_ree_into_float (JStr s)
    = Ok (float_div (float_of_decimal false m e) (float_of_int 1000)).
Proof.
  intros (c & ip & fp & Hip & Hfp & Hs)%price_string_parts.
  unfold price_from_ree_into_float, float_of_str.
  rewrite chars_replace_comma.
  destruct Hs as [[Hs ->] | [Hs _]]; rewrite Hs.
  - rewrite map_point_digits by assumption.
    rewrite float_of_chars_digits by assumption. eauto.
  - rewrite map_app, map_point_digits by assumption.
    simpl map at 1. rewrite map_point_digits by assumption.
    change (point_for_comma ",") with "."%char.
    rewrite float_of_chars_point by assumption. eauto.
Qed.

(** ** One record *)

Lemma bind_ok {A B} (r : result A) (k : A -> result B) (b : B) :
  (r ≫= k) = Ok b -> exists a, r = Ok a /\ k a = Ok b.
Proof. destruct r as [a|e]; simpl; [eauto | discriminate]. Qed.

Lemma time_of_label hour k :
  parsed_time_in_answer_from_ree hour = Ok k <->
  exists s, label_of hour = Some s /\ int_of_str (substring 0 2 s) = Ok k.
Proof.
  unfold parsed_time_in_answer_from_ree, label_of, getitem.
  destruct hour as [| | | | |l|items]; simpl;
    try (split; [intros H | intros (? & H & _)]; discriminate H).
  destruct (dict_get items "Hora") as [[| | | |s| |]|]; simpl;
    try (split; [intros H | intros (? & H & _)]; discriminate H).
  split; [eauto | now intros (s' & [= <-] & H)].
Qed.

(** The dict built for one hour has the given rates as its keys, each with
    the price converted from the field of that name. *)
Lemma all_rates_spec hour rates d :
  all_rates hour rates = Ok d ->
  dom d = list_to_set rates
  /\ forall a, a ∈ rates ->
       exists v x, getitem hour a = Ok v
                   /\ price_from_ree_into_float v = Ok x /\ d !! a = Some x.
Proof.
  revert d. induction rates as [|a_rate rest IH]; intros d; simpl.
  - intros [= <-]. split; [apply dom_empty_L | intros a Ha; inversion Ha].
  - intros (v & Hv & (x & Hx & (d' & Hd' & [= <-])%bind_ok)%bind_ok)%bind_ok.
    destruct (IH d' Hd') as [Hdom Hget]. split.
    + rewrite dom_insert_L, Hdom. reflexivity.
    + intros a Ha. destruct (decide (a = a_rate)) as [->|Hne].
      * exists v, x. now rewrite lookup_insert_eq.
      * apply elem_of_cons in Ha as [Ha|Ha]; [contradiction|].
        destruct (Hget a Ha) as (v' & x' & ? & ? & ?).
        exists v', x'. now rewrite lookup_insert_ne.
Qed.

Lemma has_price_converts items a :
  has_price items a = true ->
  exists s x, dict_get items a = Some (JStr s)
              /\ price_from_ree_into_float (JStr s) = Ok x.
Proof.
  unfold has_price.
  destruct (dict_get items a) as [[| | | |s| |]|]; try discriminate.
  intros (m & e & H)%price_string_converts. eauto.
Qed.

Lemma all_rates_ok items rates :
  forallb (has_price items) rates = true ->
  exists d, all_rates (JDict items) rates = Ok d.
Proof.
  induction rates as [|a rest IH]; simpl; [eauto|].
  intros [(s & x & Hs & Hx)%has_price_converts (d & Hd)%IH]%andb_prop.
  rewrite Hs. simpl. simpl in Hx. rewrite Hx. simpl. rewrite Hd. simpl. eauto.
Qed.

Lemma valid_rate_has_price items r :
  valid_rate (Some r) = true ->
  forallb (has_price items) AVAILABLE_RATES = true ->
  has_price items r = true.
Proof.
  intros Hr%bool_decide_eq_true Hall.
  rewrite forallb_forall in Hall. apply Hall.
  now apply list_elem_of_In.
Qed.

(** A well-formed record gives a price and an hour. *)
Lemma well_formed_record_parses hour rate :
  well_formed_record hour = true -> valid_rate rate = true ->
  exists p k, price_of hour rate = Ok p
              /\ parsed_time_in_answer_from_ree hour = Ok k.
Proof.
  intros Hwf Hrate.
  destruct hour as [| | | | | |items]; try discriminate.
  unfold well_formed_record in Hwf. apply andb_prop in Hwf as [Hl Hp].
  destruct (label_of (JDict items)) as [s|] eqn:Hs; [|discriminate].
  destruct (hour_label_int s Hl) as (d1 & d2 & t & _ & _ & _ & Hk).
  assert (Ht : parsed_time_in_answer_from_ree (JDict items)
               = Ok (10 * digit_value d1 + digit_value d2))
    by (apply time_of_label; eauto).
  destruct rate as [r|]; simpl.
  - destruct (has_price_converts items r) as (s' & x & Hs' & Hx);
      [now apply valid_rate_has_price|].
    rewrite Hs'. simpl. simpl in Hx. rewrite Hx. simpl. eauto.
  - destruct (all_rates_ok items AVAILABLE_RATES Hp) as (d & Hd).
    simpl in Hd. rewrite Hd. simpl. eauto.
Qed.

(** ** The loop *)

Lemma parse_with_records answer rate hours :
  records answer = Some hours ->
  parse_answer_from_ree answer rate = parse_hours hours rate ∅.
Proof.
  unfold records, parse_answer_from_ree, check_valid_answer.
  destruct answer as [| | | | | |items]; try discriminate. simpl.
  destruct (dict_get items "PVPC") as [[| | | | |l|]|]; try discriminate.
  now intros [= ->].
Qed.

Lemma parse_hours_ok hours rate acc :
  Forall (fun hour => exists p k, price_of hour rate = Ok p
            /\ parsed_time_in_answer_from_ree hour = Ok k) hours ->
  exists m, parse_hours hours rate acc = Ok m.
Proof.
  intros H. revert acc.
  induction H as [|hour rest (p & k & Hp & Hk) _ IH]; intros acc; simpl.
  - eauto.
  - rewrite Hp. simpl. rewrite Hk. simpl. apply IH.
Qed.

(** The keys added are the hours of the records. *)
Lemma parse_hours_dom hours rate acc m :
  parse_hours hours rate acc = Ok m ->
  exists ks,
    Forall2 (fun hour k => parsed_time_in_answer_from_ree hour = Ok k) hours ks
    /\ dom m = dom acc ∪ list_to_set ks.
Proof.
  revert acc. induction hours as [|hour rest IH]; intros acc; simpl.
  - intros [= <-]. exists []. split; [constructor|].
    simpl. now rewrite (right_id_L ∅ (∪)).
  - intros (p & Hp & (k & Hk & Hm)%bind_ok)%bind_ok.
    destruct (IH _ Hm) as (ks & Hks & Hdom).
    exists (k :: ks). split; [now constructor|].
    rewrite Hdom, dom_insert_L. simpl.
    rewrite (comm_L (∪) {[k]} (dom acc)). now rewrite (assoc_L (∪)).
Qed.

(** Every entry was there before, or is the price of a record under that
    record's hour. *)
Lemma parse_hours_lookup hours rate acc m k p :
  parse_hours hours rate acc = Ok m -> m !! k = Some p ->
  acc !! k = Some p
  \/ exists hour, hour ∈ hours
       /\ parsed_time_in_answer_from_ree hour = Ok k
       /\ price_of hour rate = Ok p.
Proof.
  revert acc. induction hours as [|hour rest IH]; intros acc; simpl.
  - intros [= <-]. now left.
  - intros (p' & Hp & (k' & Hk & Hm)%bind_ok)%bind_ok Hlook.
    destruct (IH _ Hm Hlook) as [Hacc | (h & Hin & ? & ?)].
    + rewrite lookup_insert in Hacc. case_decide as Hkk.
      * injection Hacc as <-. subst k'. right. exists hour.
        split; [apply list_elem_of_here | auto].
      * now left.
    + right. exists h. split; [now apply list_elem_of_further | auto].
Qed.

(** When no later record has the same hour, a record's price is the one
    found under its hour. *)
Lemma parse_hours_untouched hours rate acc m k :
  parse_hours hours rate acc = Ok m ->
  Forall (fun hour => parsed_time_in_answer_from_ree hour <> Ok k) hours ->
  m !! k = acc !! k.
Proof.
  revert acc. induction hours as [|hour rest IH]; intros acc; simpl.
  - now intros [= <-].
  - intros (p' & Hp & (k' & Hk & Hm)%bind_ok)%bind_ok Hall.
    inversion Hall as [|? ? Hne Hrest]; subst.
    rewrite (IH _ Hm Hrest). apply lookup_insert_ne. congruence.
Qed.

Lemma parse_hours_last pre hour post rate acc m k p :
  parse_hours (pre ++ hour :: post) rate acc = Ok m ->
  parsed_time_in_answer_from_ree hour = Ok k ->
  price_of hour rate = Ok p ->
  Forall (fun h => parsed_time_in_answer_from_ree h <> Ok k) post ->
  m !! k = Some p.
Proof.
  revert acc. induction pre as [|h pre IH]; intros acc; simpl.
  - intros Hm Hk Hp Hpost. rewrite Hp, Hk in Hm. simpl in Hm.
    rewrite (parse_hours_untouched _ _ _ _ _ Hm Hpost).
    apply lookup_insert_eq.
  - intros (p' & _ & (k' & _ & Hm)%bind_ok)%bind_ok. eauto.
Qed.

Lemma times_are_label_hours hours ks :
  Forall2 (fun hour k => parsed_time_in_answer_from_ree hour = Ok k) hours ks ->
  omap label_hour (omap label_of hours) = ks
  /\ length (omap label_of hours) = length hours
  /\ Forall (fun s => is_Some (label_hour s)) (omap label_of hours).
Proof.
  induction 1 as [|hour k rest ks' Hk _ (IH1 & IH2 & IH3)]; simpl;
    [repeat split; constructor|].
  apply time_of_label in Hk as (s & -> & Hs). simpl.
  assert (Hk : label_hour s = Some k) by (unfold label_hour; now rewrite Hs).
  rewrite Hk.
  split; [f_equal; exact IH1|]. split; [f_equal; exact IH2|].
  constructor; [rewrite Hk; eauto | exact IH3].
Qed.

Lemma well_formed_records answer :
  well_formed answer = true ->
  exists hours, records answer = Some hours
                /\ Forall (fun hour => well_formed_record hour = true) hours.
Proof.
  unfold well_formed. destruct (records answer) as [hours|]; [|discriminate].
  intros H. exists hours. split; [reflexivity|].
  apply Forall_forall. intros h Hh. rewrite forallb_forall in H.
  apply H. now apply list_elem_of_In.
Qed.

(** A well-formed payload parses. *)
Lemma well_formed_parses answer rate :
  well_formed answer = true -> valid_rate rate = true ->
  exists hours m,
    records answer = Some hours
    /\ Forall (fun hour => well_formed_record hour = true) hours
    /\ parse_hours hours rate ∅ = Ok m
    /\ parse_answer_from_ree answer rate = Ok m.
Proof.
  intros (hours & Hrec & Hwf)%well_formed_records Hrate.
  destruct (parse_hours_ok hours rate ∅) as (m & Hm).
  { eapply Forall_impl; [exact Hwf|]. intros h Hh.
    now apply well_formed_record_parses. }
  exists hours, m. rewrite (parse_with_records _ _ _ Hrec). auto.
Qed.

(** ** Keys of the parsed mapping *)

Lemma hour_label_hour s :
  is_hour_label s = true ->
  exists k, label_hour s = Some k /\ 0 <= k <= 99
            /\ (is_day_hour_label s = true <-> k <= 23).
Proof.
  intros (d1 & d2 & t & -> & H1 & H2 & Hk)%hour_label_int.
  exists (10 * digit_value d1 + digit_value d2).
  unfold label_hour. rewrite Hk. split; [reflexivity|].
  pose proof (digit_value_range d1 H1). pose proof (digit_value_range d2 H2).
  split; [lia|].
  unfold is_day_hour_label. simpl. rewrite H1, H2. simpl.
  apply Z.leb_le.
Qed.

Lemma well_formed_labels hours :
  Forall (fun hour => well_formed_record hour = true) hours ->
  Forall (fun s => is_hour_label s = true) (omap label_of hours).
Proof.
  induction 1 as [|hour rest Hwf _ IH]; simpl; [constructor|].
  destruct hour as [| | | | | |items]; try discriminate.
  unfold well_formed_record in Hwf. apply andb_prop in Hwf as [Hl _].
  destruct (label_of (JDict items)) as [s|]; [|discriminate].
  now constructor.
Qed.

(** The keys of the mapping parsed from a well-formed payload are the
    integers read from its hour labels. *)
Lemma well_formed_dom answer rate :
  well_formed answer = true -> valid_rate rate = true ->
  exists m,
    parse_answer_from_ree answer rate = Ok m
    /\ Forall (fun s => is_hour_label s = true) (hour_labels answer)
    /\ Forall (fun s => is_Some (label_hour s)) (hour_labels answer)
    /\ dom m = list_to_set (omap label_hour (hour_labels answer))
    /\ length (omap label_hour (hour_labels answer))
       = length (hour_labels answer).
Proof.
  intros Hwf Hrate.
  destruct (well_formed_parses answer rate Hwf Hrate)
    as (hours & m & Hrec & Hall & Hm & Hparse).
  exists m. split; [exact Hparse|].
  unfold hour_labels. rewrite Hrec.
  split; [now apply well_formed_labels|].
  destruct (parse_hours_dom _ _ _ _ Hm) as (ks & Hks & Hdom).
  destruct (times_are_label_hours _ _ Hks) as (Heq & Hlen & Hsome).
  split; [exact Hsome|]. rewrite Heq. split.
  - rewrite Hdom, dom_empty_L. now rewrite (left_id_L ∅ (∪)).
  - rewrite Hlen. symmetry. exact (Forall2_length _ _ _ Hks).
Qed.



(** C8, as stated, fails: the payload [long_day_evening] is well formed and
    its second record is stored under the key 24. *)
Lemma key_beyond_23 :
  ~ (forall answer rate m,
       well_formed answer = true ->
       parse_answer_from_ree answer rate = Ok m ->
       forall k, k ∈ dom m -> 0 <= k <= 23).
Proof.
  intros H.
  destruct (parse_answer_from_ree long_day_evening (Some "GEN")) as [m|e] eqn:E;
    [|vm_compute in E; discriminate E].
  assert (H24 : 24 ∈ dom m).
  { apply elem_of_dom. vm_compute in E. injection E as <-.
    vm_compute. eauto. }
  specialize (H long_day_evening (Some "GEN") m eq_refl E 24 H24). lia.
Qed.

(** C8, amended: the keys of the mapping parsed from a well-formed payload
    are read from the two leading digits of its hour labels, so they lie
    between 0 and 99; they all lie between 0 and 23 exactly when every hour
    label starts with an hour of the day, 00 to 23. *)
Theorem keys_follow_hour_labels answer rate :
  well_formed answer = true -> valid_rate rate = true ->
  exists m,
    parse_answer_from_ree answer rate = Ok m
    /\ (forall k, k ∈ dom m -> 0 <= k <= 99)
    /\ ((forall k, k ∈ dom m -> 0 <= k <= 23)
        <-> Forall (fun s => is_day_hour_label s = true) (hour_labels answer)).
Proof.
  intros Hwf Hrate.
  destruct (well_formed_dom answer rate Hwf Hrate)
    as (m & Hparse & Hlabel & _ & Hdom & _).
  exists m. split; [exact Hparse|].
  rewrite Forall_forall in Hlabel.
  assert (Hin : forall k, k ∈ dom m <->
                  exists s, s ∈ hour_labels answer /\ label_hour s = Some k).
  { intros k. rewrite Hdom, elem_of_list_to_set. apply list_elem_of_omap. }
  split; [|split].
  - intros k (s & Hs & Hk)%Hin.
    destruct (hour_label_hour s (Hlabel s Hs)) as (k' & Hk' & Hr & _).
    congruence.
  - intros Hkeys. apply Forall_forall. intros s Hs.
    destruct (hour_label_hour s (Hlabel s Hs)) as (k & Hk & _ & Hday).
    apply Hday. apply Hkeys, Hin. eauto.
  - intros Hday k (s & Hs & Hk)%Hin. rewrite Forall_forall in Hday.
    destruct (hour_label_hour s (Hlabel s Hs)) as (k' & Hk' & Hr & Hiff).
    assert (k' = k) as -> by congruence.
    split; [lia | now apply Hiff, Hday].
Qed.

Lemma keys_follow_hour_labels_witness :
  well_formed morning = true /\ valid_rate (Some "VHC") = true
  /\ exists m,
       parse_answer_from_ree morning (Some "VHC") = Ok m
       /\ (forall k, k ∈ dom m -> 0 <= k <= 99)
       /\ ((forall k, k ∈ dom m -> 0 <= k <= 23)
           <-> Forall (fun s => is_day_hour_label s = true)
                 (hour_labels morning)).
Proof.
  split; [reflexivity|]. split; [reflexivity|].
  apply (keys_follow_hour_labels morning (Some "VHC")); reflexivity.
Defined.

(** ** Values of the parsed mapping *)

Lemma price_of_string v x :
  price_from_ree_into_float v = Ok x -> exists s, v = JStr s.
Proof. destruct v; try discriminate. eauto. Qed.

(** With no rate, what is stored for a record is a dict with the rates of
    the catalog as keys, each with the price converted from its field. *)
Lemma price_of_all hour p :
  price_of hour None = Ok p ->
  exists d,
    p = Prices d /\ dom d = list_to_set AVAILABLE_RATES
    /\ forall a, a ∈ AVAILABLE_RATES ->
         exists s x, getitem hour a = Ok (JStr s)
                     /\ price_from_ree_into_float (JStr s) = Ok x
                     /\ d !! a = Some x.
Proof.
  unfold price_of. intros (d & Hd & [= <-])%bind_ok.
  destruct (all_rates_spec _ _ _ Hd) as [Hdom Hget].
  exists d. split; [reflexivity|]. split; [exact Hdom|].
  intros a Ha. destruct (Hget a Ha) as (v & x & Hv & Hx & Hlook).
  destruct (price_of_string v x Hx) as [s ->]. eauto.
Qed.

(** With a rate, what is stored for a record is the price converted from
    the field of that rate. *)
Lemma price_of_one hour r p :
  price_of hour (Some r) = Ok p ->
  exists s x, getitem hour r = Ok (JStr s)
              /\ price_from_ree_into_float (JStr s) = Ok x /\ p = Price x.
Proof.
  unfold price_of. intros (v & Hv & (x & Hx & [= <-])%bind_ok)%bind_ok.
  destruct (price_of_string v x Hx) as [s ->]. eauto.
Qed.

(** Every record has an entry under its hour. *)
Lemma parse_hours_covers hours rate acc m :
  parse_hours hours rate acc = Ok m ->
  forall hour, hour ∈ hours ->
    exists k, parsed_time_in_answer_from_ree hour = Ok k /\ is_Some (m !! k).
Proof.
  intros (ks & Hks & Hdom)%parse_hours_dom hour [i Hi]%list_elem_of_lookup.
  destruct (Forall2_lookup_l _ _ _ _ _ Hks Hi) as (k & Hk & Htime).
  exists k. split; [exact Htime|].
  apply elem_of_dom. rewrite Hdom. apply elem_of_union_r.
  apply elem_of_list_to_set. exact (list_elem_of_lookup_2 _ _ _ Hk).
Qed.

(** The entry of an hour is the price of the last record of that hour. *)
Lemma well_formed_last hours rate m pre hour post k :
  Forall (fun h => well_formed_record h = true) hours ->
  valid_rate rate = true ->
  parse_hours hours rate ∅ = Ok m ->
  hours = pre ++ hour :: post ->
  parsed_time_in_answer_from_ree hour = Ok k ->
  Forall (fun h => parsed_time_in_answer_from_ree h <> Ok k) post ->
  exists p, price_of hour rate = Ok p /\ m !! k = Some p.
Proof.
  intros Hwf Hrate Hm -> Hk Hpost.
  apply Forall_app in Hwf as [_ Hwf].
  inversion Hwf as [|? ? Hhour _]; subst.
  destruct (well_formed_record_parses hour rate Hhour Hrate)
    as (p & k' & Hp & _).
  exists p. split; [exact Hp|].
  exact (parse_hours_last _ _ _ _ _ _ _ _ Hm Hk Hp Hpost).
Qed.

(** C6: parsed with no rate, a well-formed payload gives a mapping in which
    every value is the dict of some record with that hour: its keys are
    exactly the three rates of the catalog, and each rate has the price
    converted from the record's field of that name.  Every record has an
    entry under its hour, and the entry of an hour is the dict of the last
    record with that hour. *)
Theorem no_rate_gives_all_rates answer :
  well_formed answer = true ->
  exists hours m,
    records answer = Some hours
    /\ parse_answer_from_ree answer None = Ok m
    /\ (forall k p, m !! k = Some p ->
         exists hour d,
           hour ∈ hours
           /\ parsed_time_in_answer_from_ree hour = Ok k
           /\ p = Prices d
           /\ dom d = {["GEN"; "NOC"; "VHC"]}
           /\ size d = 3%nat
           /\ forall a, a ∈ AVAILABLE_RATES ->
                exists s x,
                  getitem hour a = Ok (JStr s)
                  /\ price_from_ree_into_float (JStr s) = Ok x
                  /\ d !! a = Some x)
    /\ (forall hour, hour ∈ hours ->
         exists k, parsed_time_in_answer_from_ree hour = Ok k
                   /\ is_Some (m !! k))
    /\ (forall pre hour post k,
         hours = pre ++ hour :: post ->
         parsed_time_in_answer_from_ree hour = Ok k ->
         Forall (fun h => parsed_time_in_answer_from_ree h <> Ok k) post ->
         exists d,
           m !! k = Some (Prices d)
           /\ dom d = {["GEN"; "NOC"; "VHC"]}
           /\ size d = 3%nat
           /\ forall a, a ∈ AVAILABLE_RATES ->
                exists s x,
                  getitem hour a = Ok (JStr s)
                  /\ price_from_ree_into_float (JStr s) = Ok x
                  /\ d !! a = Some x).
Proof.
  intros Hwf.
  destruct (well_formed_parses answer None Hwf eq_refl)
    as (hours & m & Hrec & Hall & Hm & Hparse).
  assert (Hdict : forall hour p,
             price_of hour None = Ok p ->
             exists d,
               p = Prices d /\ dom d = {["GEN"; "NOC"; "VHC"]}
               /\ size d = 3%nat
               /\ forall a, a ∈ AVAILABLE_RATES ->
                    exists s x,
                      getitem hour a = Ok (JStr s)
                      /\ price_from_ree_into_float (JStr s) = Ok x
                      /\ d !! a = Some x).
  { intros hour p Hp.
    destruct (price_of_all hour p Hp) as (d & -> & Hdom & Hget).
    exists d. split; [reflexivity|]. split; [|split; [|exact Hget]].
    - rewrite Hdom. simpl. now rewrite (right_id_L ∅ (∪)), (assoc_L (∪)).
    - rewrite <- size_dom, Hdom. reflexivity. }
  exists hours, m. split; [exact Hrec|]. split; [exact Hparse|].
  split; [|split].
  - intros k p Hlook.
    destruct (parse_hours_lookup _ _ _ _ _ _ Hm Hlook)
      as [Hempty | (hour & Hin & Hk & Hp)].
    { rewrite lookup_empty in Hempty. discriminate. }
    destruct (Hdict hour p Hp) as (d & -> & Hd).
    exists hour, d. split; [exact Hin|]. split; [exact Hk|].
    split; [reflexivity | exact Hd].
  - exact (parse_hours_covers _ _ _ _ Hm).
  - intros pre hour post k Hsplit Hk Hpost.
    destruct (well_formed_last hours None m pre hour post k
                Hall eq_refl Hm Hsplit Hk Hpost) as (p & Hp & Hlook).
    destruct (Hdict hour p Hp) as (d & -> & Hd).
    exists d. split; [exact Hlook | exact Hd].
Qed.

Lemma no_rate_gives_all_rates_witness :
  well_formed morning = true
  /\ exists hours m,
       records morning = Some hours
       /\ parse_answer_from_ree morning None = Ok m
       /\ (forall k p, m !! k = Some p ->
            exists hour d,
              hour ∈ hours
              /\ parsed_time_in_answer_from_ree hour = Ok k
              /\ p = Prices d
              /\ dom d = {["GEN"; "NOC"; "VHC"]}
              /\ size d = 3%nat
              /\ forall a, a ∈ AVAILABLE_RATES ->
                   exists s x,
                     getitem hour a = Ok (JStr s)
                     /\ price_from_ree_into_float (JStr s) = Ok x
                     /\ d !! a = Some x)
       /\ (forall hour, hour ∈ hours ->
            exists k, parsed_time_in_answer_from_ree hour = Ok k
                      /\ is_Some (m !! k))
       /\ (forall pre hour post k,
            hours = pre ++ hour :: post ->
            parsed_time_in_answer_from_ree hour = Ok k ->
            Forall (fun h => parsed_time_in_answer_from_ree h <> Ok k) post ->
            exists d,
              m !! k = Some (Prices d)
              /\ dom d = {["GEN"; "NOC"; "VHC"]}
              /\ size d = 3%nat
              /\ forall a, a ∈ AVAILABLE_RATES ->
                   exists s x,
                     getitem hour a = Ok (JStr s)
                     /\ price_from_ree_into_float (JStr s) = Ok x
                     /\ d !! a = Some x).
Proof.
  split; [reflexivity|].
  apply (no_rate_gives_all_rates morning). reflexivity.
Defined.

(** ** One rate: the other fields are not read *)

Lemma same_for_rate_record r hour1 hour2 :
  same_for_rate r hour1 hour2 ->
  price_of hour1 (Some r) = price_of hour2 (Some r)
  /\ parsed_time_in_answer_from_ree hour1
     = parsed_time_in_answer_from_ree hour2.
Proof.
  unfold same_for_rate.
  destruct hour1 as [| | | | | |items1], hour2 as [| | | | | |items2];
    try (intros H; inversion H; subst; split; reflexivity).
  intros [Hl Hr].
  unfold price_of, parsed_time_in_answer_from_ree, getitem.
  now rewrite Hl, Hr.
Qed.

Lemma same_for_rate_hours r hours1 hours2 acc :
  Forall2 (same_for_rate r) hours1 hours2 ->
  parse_hours hours1 (Some r) acc = parse_hours hours2 (Some r) acc.
Proof.
  intros H. revert acc.
  induction H as [|hour1 hour2 rest1 rest2 Hsame _ IH]; intros acc;
    [reflexivity|].
  destruct (same_for_rate_record _ _ _ Hsame) as [Hp Hk].
  cbn [parse_hours]. rewrite Hp, Hk.
  destruct (price_of hour2 (Some r)) as [p|e]; [|reflexivity]. simpl.
  destruct (parsed_time_in_answer_from_ree hour2) as [k|e]; [|reflexivity].
  simpl. apply IH.
Qed.

(** C7: parsed with a rate of the catalog, a well-formed payload gives a
    mapping in which every value is one number, the price converted from
    the field of that rate in some record with that hour; every record has
    an entry under its hour, and the entry of an hour is the price
    converted from that field of the last record with that hour; and two
    payloads whose records agree on the hour label and on the field of
    that rate parse to the same result, whatever their other fields
    hold. *)
Theorem one_rate_reads_one_field r :
  valid_rate (Some r) = true ->
  (forall answer,
     well_formed answer = true ->
     exists hours m,
       records answer = Some hours
       /\ parse_answer_from_ree answer (Some r) = Ok m
       /\ (forall k p, m !! k = Some p ->
            exists hour s x,
              hour ∈ hours
              /\ parsed_time_in_answer_from_ree hour = Ok k
              /\ getitem hour r = Ok (JStr s)
              /\ price_from_ree_into_float (JStr s) = Ok x
              /\ p = Price x)
       /\ (forall hour, hour ∈ hours ->
            exists k, parsed_time_in_answer_from_ree hour = Ok k
                      /\ is_Some (m !! k))
       /\ (forall pre hour post k,
            hours = pre ++ hour :: post ->
            parsed_time_in_answer_from_ree hour = Ok k ->
            Forall (fun h => parsed_time_in_answer_from_ree h <> Ok k) post ->
            exists s x,
              getitem hour r = Ok (JStr s)
              /\ price_from_ree_into_float (JStr s) = Ok x
              /\ m !! k = Some (Price x)))
  /\ (forall answer1 answer2 hours1 hours2,
        records answer1 = Some hours1 ->
        records answer2 = Some hours2 ->
        Forall2 (same_for_rate r) hours1 hours2 ->
        parse_answer_from_ree answer1 (Some r)
        = parse_answer_from_ree answer2 (Some r)).
Proof.
  intros Hrate. split.
  - intros answer Hwf.
    destruct (well_formed_parses answer (Some r) Hwf Hrate)
      as (hours & m & Hrec & Hall & Hm & Hparse).
    exists hours, m. split; [exact Hrec|]. split; [exact Hparse|].
    split; [|split].
    + intros k p Hlook.
      destruct (parse_hours_lookup _ _ _ _ _ _ Hm Hlook)
        as [Hempty | (hour & Hin & Hk & Hp)].
      { rewrite lookup_empty in Hempty. discriminate. }
      destruct (price_of_one hour r p Hp) as (s & x & Hs & Hx & ->).
      exists hour, s, x. auto.
    + exact (parse_hours_covers _ _ _ _ Hm).
    + intros pre hour post k Hsplit Hk Hpost.
      destruct (well_formed_last _ _ _ _ _ _ _ Hall Hrate Hm Hsplit Hk Hpost)
        as (p & Hp & Hlook).
      destruct (price_of_one hour r p Hp) as (s & x & Hs & Hx & ->).
      exists s, x. auto.
  - intros answer1 answer2 hours1 hours2 H1 H2 Hsame.
    rewrite (parse_with_records _ _ _ H1), (parse_with_records _ _ _ H2).
    now apply same_for_rate_hours.
Qed.

Lemma one_rate_reads_one_field_witness :
  valid_rate (Some "NOC") = true
  /\ well_formed morning = true
  /\ (exists hours m,
        records morning = Some hours
        /\ parse_answer_from_ree morning (Some "NOC") = Ok m
        /\ (forall k p, m !! k = Some p ->
             exists hour s x,
               hour ∈ hours
               /\ parsed_time_in_answer_from_ree hour = Ok k
               /\ getitem hour "NOC" = Ok (JStr s)
               /\ price_from_ree_into_float (JStr s) = Ok x
               /\ p = Price x)
        /\ (forall hour, hour ∈ hours ->
             exists k, parsed_time_in_answer_from_ree hour = Ok k
                       /\ is_Some (m !! k))
        /\ (forall pre hour post k,
             hours = pre ++ hour :: post ->
             parsed_time_in_answer_from_ree hour = Ok k ->
             Forall (fun h => parsed_time_in_answer_from_ree h <> Ok k) post ->
             exists s x,
               getitem hour "NOC" = Ok (JStr s)
               /\ price_from_ree_into_float (JStr s) = Ok x
               /\ m !! k = Some (Price x)))
  /\ parse_answer_from_ree morning (Some "NOC")
     = parse_answer_from_ree morning_other_rates (Some "NOC").
Proof.
  split; [reflexivity|]. split; [reflexivity|].
  destruct (one_rate_reads_one_field "NOC" eq_refl) as [Hvalue Hsame].
  split.
  - apply (Hvalue morning). reflexivity.
  - eapply (Hsame morning morning_other_rates); try reflexivity.
    repeat constructor.
Defined.

(** ** Price conversion *)

(** C2: the conversion of a price string reads the string with every comma
    turned into a point (and nothing else changed) as a float, and divides
    that float by 1000; a string that is no number makes it raise.  The
    string "123,450" converts to the float 0.12345, which is also the float
    123.450 / 1000. *)
Theorem price_conversion :
  (forall s,
     price_from_ree_into_float (JStr s)
     = match float_of_str (replace "," "." s) with
       | Ok x => Ok (float_div x (float_of_int 1000))
       | Raise e => Raise e
       end)
  /\ (forall s, chars (replace "," "." s) = map point_for_comma (chars s))
  /\ float_of_str "123.450" = Ok (Prim2SF 123.450%float)
  /\ float_of_int 1000 = Prim2SF 1000%float
  /\ price_from_ree_into_float (JStr "123,450") = Ok (Prim2SF 0.12345%float)
  /\ (123.450 / 1000)%float = 0.12345%float.
Proof.
  split; [reflexivity|]. split; [exact chars_replace_comma|].
  repeat split; vm_compute; reflexivity.
Qed.

(** ** The entry points and the network *)

Lemma check_requested_rate_valid rate :
  valid_rate rate = true ->
  match rate with
  | Some r => check_requested_rate r
  | None => Ok tt
  end = Ok tt.
Proof.
  destruct rate as [r|]; [|reflexivity]. simpl. intros H.
  unfold check_requested_rate. now rewrite H.
Qed.

(** With a valid rate the request is sent, and the result is decided by
    what the network answers. *)
Lemma get_day_prices_sent date rate w :
  valid_rate rate = true ->
  get_day_prices date rate w
  = (match server w (day_request date) with
     | Raise e => Raise e
     | Ok ans =>
         if status_code ans =? 200 then
           j ← body_json ans;
           m ← parse_answer_from_ree j rate;
           Ok (Mapping m)
         else Ok (Boolean false)
     end,
     World (today w) (server w) (sent w ++ [day_request date])).
Proof.
  intros H. unfold get_day_prices.
  rewrite (check_requested_rate_valid rate H).
  unfold requests_get. fold (day_request date).
  destruct (server w (day_request date)) as [ans|e]; [|reflexivity].
  now destruct (status_code ans =? 200).
Qed.

Lemma same_day_request d1 d2 : same_day d1 d2 -> day_request d1 = day_request d2.
Proof.
  intros (Hy & Hm & Hd). unfold day_request, strftime_Y_m_d.
  now rewrite Hy, Hm, Hd.
Qed.

(** C3: asked for a rate that is not in the catalog, [get_day_prices]
    raises a [ValueError] whose message names the rate, and leaves the
    world as it was: no request has been sent. *)
Theorem invalid_rate_raises_before_request date rate w :
  rate ∉ AVAILABLE_RATES ->
  get_day_prices date (Some rate) w
  = (Raise (ValueError (Message ("The rate " +:+ rate +:+ " is not valid"))), w)
  /\ sent (snd (get_day_prices date (Some rate) w)) = sent w.
Proof.
  intros Hrate.
  assert (H : get_day_prices date (Some rate) w
              = (Raise (ValueError
                          (Message ("The rate " +:+ rate +:+ " is not valid"))),
                 w)).
  { unfold get_day_prices, check_requested_rate.
    now rewrite (bool_decide_eq_false_2 _ Hrate). }
  split; [exact H | now rewrite H].
Qed.

Lemma invalid_rate_raises_before_request_witness :
  ("PVPC" ∉ AVAILABLE_RATES)
  /\ get_day_prices (Datetime 2020 10 25 9 30 0 0) (Some "PVPC") oct_25_morning
     = (Raise (ValueError (Message "The rate PVPC is not valid")),
        oct_25_morning)
  /\ sent (snd (get_day_prices (Datetime 2020 10 25 9 30 0 0) (Some "PVPC")
                  oct_25_morning))
     = [].
Proof.
  assert (H : "PVPC" ∉ AVAILABLE_RATES)
    by (apply (bool_decide_eq_false_1 ("PVPC" ∈ AVAILABLE_RATES)); reflexivity).
  split; [exact H|].
  exact (invalid_rate_raises_before_request
           (Datetime 2020 10 25 9 30 0 0) "PVPC" oct_25_morning H).
Defined.

(** C4: when the rate is valid and the network answers the request of the
    day with a response, a status other than 200 makes [get_day_prices]
    return [False], and the status 200 makes it return what the parser
    gives for the decoded body and the same rate; one request was sent. *)
Theorem status_decides_result date rate w ans :
  valid_rate rate = true ->
  server w (day_request date) = Ok ans ->
  (status_code ans <> 200 ->
   fst (get_day_prices date rate w) = Ok (Boolean false))
  /\ (status_code ans = 200 ->
      forall j, body_json ans = Ok j ->
        fst (get_day_prices date rate w)
        = match parse_answer_from_ree j rate with
          | Ok m => Ok (Mapping m)
          | Raise e => Raise e
          end)
  /\ sent (snd (get_day_prices date rate w)) = sent w ++ [day_request date].
Proof.
  intros Hrate Hans. rewrite (get_day_prices_sent date rate w Hrate), Hans.
  simpl. split; [|split; [|reflexivity]].
  - intros Hne. apply Z.eqb_neq in Hne. now rewrite Hne.
  - intros -> j ->. simpl.
    now destruct (parse_answer_from_ree j rate).
Qed.

Lemma status_decides_result_witness :
  fst (get_day_prices (Datetime 2020 10 26 0 0 0 0) None oct_25_morning)
  = Ok (Boolean false)
  /\ fst (get_day_prices (Datetime 2020 10 25 0 0 0 0) (Some "NOC")
            oct_25_morning)
     = match parse_answer_from_ree morning (Some "NOC") with
       | Ok m => Ok (Mapping m)
       | Raise e => Raise e
       end.
Proof.
  split.
  - refine (proj1 (status_decides_result (Datetime 2020 10 26 0 0 0 0) None
                     oct_25_morning
                     (Response 404 (Raise (ValueError JSONDecodeError)))
                     eq_refl eq_refl) _).
    discriminate.
  - refine (proj1 (proj2 (status_decides_result
                            (Datetime 2020 10 25 0 0 0 0) (Some "NOC")
                            oct_25_morning (Response 200 (Ok morning))
                            eq_refl eq_refl)) eq_refl morning eq_refl).
Defined.

(** C9: [get_today_prices] is [get_day_prices] at the date the clock shows.
    Its result is the result of [get_day_prices] called with a moment of
    the same day and the same rate (none, in particular), in a world where
    the network answers that day's request the same way. *)
Theorem today_prices_are_day_prices rate w1 w2 date :
  same_day date (today w1) ->
  server w1 (day_request date) = server w2 (day_request date) ->
  get_today_prices rate w1 = get_day_prices (today w1) rate w1
  /\ fst (get_today_prices rate w1) = fst (get_day_prices date rate w2)
  /\ fst (get_today_prices None w1) = fst (get_day_prices date None w2).
Proof.
  intros Hday Hserver.
  assert (H : forall r,
             fst (get_today_prices r w1) = fst (get_day_prices date r w2)).
  { intros r. unfold get_today_prices.
    destruct (valid_rate r) eqn:Hr.
    - rewrite !get_day_prices_sent by exact Hr. simpl.
      now rewrite <- (same_day_request _ _ Hday), Hserver.
    - destruct r as [r|]; [|discriminate]. simpl in Hr.
      unfold get_day_prices, check_requested_rate. now rewrite Hr. }
  split; [reflexivity|]. split; apply H.
Qed.

Lemma today_prices_are_day_prices_witness :
  same_day (Datetime 2020 10 25 0 0 0 0) (today oct_25_morning)
  /\ fst (get_today_prices None oct_25_morning)
     = fst (get_day_prices (Datetime 2020 10 25 0 0 0 0) None oct_25_evening).
Proof.
  assert (H : same_day (Datetime 2020 10 25 0 0 0 0) (today oct_25_morning))
    by (repeat split).
  split; [exact H|].
  exact (proj2 (proj2 (today_prices_are_day_prices None oct_25_morning
                         oct_25_evening (Datetime 2020 10 25 0 0 0 0)
                         H eq_refl))).
Defined.

(** ** Payloads of another shape *)

(** C5, as stated, fails: a payload that is a list has no ['PVPC'] field,
    and indexing it by a string is a [TypeError], which
    [check_valid_answer] does not catch. *)
Lemma list_payload_raises_type_error :
  ~ (forall answer rate,
       has_field answer "PVPC" = false ->
       parse_answer_from_ree answer rate = Raise DateError).
Proof.
  intros H. specialize (H (JList []) None eq_refl). discriminate H.
Qed.

(** C5, amended: for a payload that is an object without the ['PVPC']
    field, [parse_answer_from_ree] raises [DateError], whatever else the
    object holds and whatever the rate; [DateError] is not of the class of
    [ValueError]; and no mapping is returned. *)
Theorem object_without_pvpc_raises_date_error items rate :
  dict_get items "PVPC" = None ->
  parse_answer_from_ree (JDict items) rate = Raise DateError
  /\ (forall why, class_of DateError <> class_of (ValueError why))
  /\ (forall m, parse_answer_from_ree (JDict items) rate <> Ok m).
Proof.
  intros Hnone.
  assert (H : parse_answer_from_ree (JDict items) rate = Raise DateError).
  { unfold parse_answer_from_ree, check_valid_answer, getitem.
    now rewrite Hnone. }
  split; [exact H|]. split; [discriminate|].
  intros m. rewrite H. discriminate.
Qed.

Lemma object_without_pvpc_raises_date_error_witness :
  has_field no_prices "PVPC" = false
  /\ parse_answer_from_ree no_prices (Some "GEN") = Raise DateError.
Proof.
  split; [reflexivity|].
  exact (proj1 (object_without_pvpc_raises_date_error
                  [("message", JStr "No values for specified archive")]
                  (Some "GEN") eq_refl)).
Defined.

(** ** Records without a price *)

(** C10, as stated, fails: in [gap_then_missing] the second record has no
    price field, but the first record's [GEN] price is no number and
    [float] raises a [ValueError] there, before the second is reached. *)
Lemma missing_price_behind_value_error :
  ~ (forall answer rate hours,
       records answer = Some hours ->
       Exists (fun hour => lacks_price rate hour = true) hours ->
       exists key, parse_answer_from_ree answer rate = Raise (KeyError key)).
Proof.
  intros H.
  destruct (H gap_then_missing None _ eq_refl) as [key Hkey].
  - apply Exists_cons_tl, Exists_cons_hd. reflexivity.
  - vm_compute in Hkey. discriminate Hkey.
Qed.

Lemma all_rates_missing items rates :
  forallb (fun a => lacks items a || has_price items a) rates = true ->
  existsb (lacks items) rates = true ->
  exists key,
    key ∈ rates /\ dict_get items key = None
    /\ all_rates (JDict items) rates = Raise (KeyError key).
Proof.
  induction rates as [|a rest IH]; simpl; [discriminate|].
  intros [Ha Hrest]%andb_prop Hex.
  unfold lacks in Ha at 1. unfold lacks in Hex at 1.
  destruct (dict_get items a) as [v|] eqn:Hv.
  - simpl in Ha, Hex.
    destruct (has_price_converts items a Ha) as (s & x & Hs & Hx).
    rewrite Hv in Hs. injection Hs as ->.
    destruct (IH Hrest Hex) as (key & Hin & Hnone & Hraise).
    exists key. split; [now apply list_elem_of_further|].
    split; [exact Hnone|].
    change (price_from_ree_into_float (JStr s)
            ≫= (fun x0 => all_rates (JDict items) rest
                          ≫= fun d => Ok (<[a:=x0]> d))
            = Raise (KeyError key)).
    rewrite Hx. simpl. now rewrite Hraise.
  - exists a. split; [apply list_elem_of_here|]. now split.
Qed.

Lemma price_of_missing rate hour :
  lacks_price rate hour = true -> prices_present_ok rate hour = true ->
  exists key,
    key ∈ needed rate /\ getitem hour key = Raise (KeyError key)
    /\ price_of hour rate = Raise (KeyError key).
Proof.
  destruct hour as [| | | | | |items]; try discriminate.
  unfold lacks_price, prices_present_ok. intros Hlack Hok.
  destruct rate as [r|]; cbn [needed] in *.
  - cbn [existsb] in Hlack. rewrite orb_false_r in Hlack.
    unfold lacks in Hlack.
    destruct (dict_get items r) eqn:Hr; [discriminate|].
    exists r. split; [apply list_elem_of_here|].
    unfold price_of, getitem. rewrite Hr. split; reflexivity.
  - destruct (all_rates_missing items AVAILABLE_RATES Hok Hlack)
      as (key & Hin & Hnone & Hraise).
    exists key. split; [exact Hin|].
    unfold price_of, getitem. rewrite Hnone, Hraise. split; reflexivity.
Qed.

Lemma parse_hours_raise pre hour post rate acc e :
  Forall (fun h => exists p k, price_of h rate = Ok p
            /\ parsed_time_in_answer_from_ree h = Ok k) pre ->
  price_of hour rate = Raise e ->
  parse_hours (pre ++ hour :: post) rate acc = Raise e.
Proof.
  intros Hpre Hraise. revert acc.
  induction Hpre as [|h pre' (p & k & Hp & Hk) _ IH]; intros acc; simpl.
  - now rewrite Hraise.
  - rewrite Hp. simpl. rewrite Hk. simpl. apply IH.
Qed.

(** C10, amended: when the records before the first one that lacks a
    needed price field are well formed, and the price fields that record
    does have hold price strings, [parse_answer_from_ree] raises a
    [KeyError] for a needed field that the record lacks; a [KeyError] is
    neither of the class of [DateError] nor of that of [ValueError]. *)
Theorem first_missing_price_raises_key_error answer rate pre hour post :
  valid_rate rate = true ->
  records answer = Some (pre ++ hour :: post) ->
  Forall (fun h => well_formed_record h = true) pre ->
  lacks_price rate hour = true ->
  prices_present_ok rate hour = true ->
  exists key,
    key ∈ needed rate
    /\ getitem hour key = Raise (KeyError key)
    /\ parse_answer_from_ree answer rate = Raise (KeyError key)
    /\ class_of (KeyError key) <> CDateError
    /\ class_of (KeyError key) <> CValueError.
Proof.
  intros Hrate Hrec Hpre Hlack Hok.
  destruct (price_of_missing rate hour Hlack Hok) as (key & Hin & Hget & Hp).
  exists key. split; [exact Hin|]. split; [exact Hget|].
  split; [|split; discriminate].
  rewrite (parse_with_records _ _ _ Hrec).
  apply parse_hours_raise; [|exact Hp].
  eapply Forall_impl; [exact Hpre|]. intros h Hh.
  now apply well_formed_record_parses.
Qed.

Lemma first_missing_price_raises_key_error_witness :
  exists key,
    key ∈ needed None
    /\ parse_answer_from_ree vhc_missing None = Raise (KeyError key).
Proof.
  destruct (first_missing_price_raises_key_error vhc_missing None
              [hourly "00-01" "123,450" "70,10" "61,25"]
              (JDict [("Dia", JStr "25/10/2020"); ("Hora", JStr "01-02");
                      ("GEN", JStr "118,23"); ("NOC", JStr "65,02")])
              [] eq_refl eq_refl)
    as (key & Hin & _ & Hraise & _).
  - repeat constructor.
  - reflexivity.
  - reflexivity.
  - exists key. split; assumption.
Defined.

(** ** The mapping as a list of entries *)

Lemma parse_hours_step hour rest rate acc :
  parse_hours (hour :: rest) rate acc
  = (kp ← entry_of rate hour; parse_hours rest rate (<[kp.1 := kp.2]> acc)).
Proof.
  unfold entry_of. cbn [parse_hours].
  destruct (price_of hour rate) as [p|e]; [|reflexivity]. simpl.
  now destruct (parsed_time_in_answer_from_ree hour).
Qed.

(** The loop returns exactly when every record gives an entry, and then the
    mapping holds the entries, a later one replacing an earlier one with
    the same hour. *)
Lemma parse_hours_entries hours rate acc m :
  parse_hours hours rate acc = Ok m <->
  exists kps,
    Forall2 (fun hour kp => entry_of rate hour = Ok kp) hours kps
    /\ m = list_to_map (reverse kps) ∪ acc.
Proof.
  revert acc m. induction hours as [|hour rest IH]; intros acc m.
  - simpl. split.
    + intros [= <-]. exists []. split; [constructor|].
      symmetry. apply (left_id_L ∅ (∪)).
    + intros (kps & Hall & ->). inversion Hall; subst.
      f_equal. symmetry. apply (left_id_L ∅ (∪)).
  - rewrite parse_hours_step. split.
    + intros ([k p] & Hkp & Hm)%bind_ok. simpl in Hm.
      apply IH in Hm as (kps & Hall & ->).
      exists ((k, p) :: kps). split; [now constructor|].
      rewrite reverse_cons, list_to_map_app. simpl.
      rewrite <- (assoc_L (∪)). f_equal.
      rewrite insert_empty. apply insert_union_singleton_l.
    + intros (kps & Hall & ->).
      inversion Hall as [|? [k p] ? kps' Hkp Hrest]; subst.
      rewrite Hkp. simpl. apply IH. exists kps'. split; [exact Hrest|].
      rewrite reverse_cons, list_to_map_app. simpl.
      rewrite <- (assoc_L (∪)). f_equal.
      rewrite insert_empty. symmetry. apply insert_union_singleton_l.
Qed.

Lemma entries_permuted rate hours1 hours2 kps1 :
  hours1 ≡ₚ hours2 ->
  Forall2 (fun hour kp => entry_of rate hour = Ok kp) hours1 kps1 ->
  exists kps2,
    kps1 ≡ₚ kps2
    /\ Forall2 (fun hour kp => entry_of rate hour = Ok kp) hours2 kps2.
Proof.
  intros Hperm. revert kps1.
  induction Hperm as [|h l l' _ IH|h1 h2 l|l l' l'' _ IH1 _ IH2]; intros kps1 H.
  - inversion H; subst. exists []. split; [reflexivity | constructor].
  - inversion H as [|? kp ? kps Hkp Hrest]; subst.
    destruct (IH kps Hrest) as (kps2 & Hp & Hall).
    exists (kp :: kps2). split; [now constructor | now constructor].
  - inversion H as [|? kp2 ? kps' Hkp2 H']; subst.
    inversion H' as [|? kp1 ? kps Hkp1 Hrest]; subst.
    exists (kp1 :: kp2 :: kps). split; [apply perm_swap|].
    now repeat constructor.
  - destruct (IH1 kps1 H) as (kps2 & Hp2 & Hall2).
    destruct (IH2 kps2 Hall2) as (kps3 & Hp3 & Hall3).
    exists kps3. split; [now transitivity kps2 | exact Hall3].
Qed.

Lemma entries_keys rate hours kps :
  Forall2 (fun hour kp => entry_of rate hour = Ok kp) hours kps ->
  omap key_of hours = kps.*1.
Proof.
  induction 1 as [|hour [k p] rest kps' Hkp _ IH]; [reflexivity|].
  unfold entry_of in Hkp.
  apply bind_ok in Hkp as (p' & _ & (k' & Hk & [= -> ->])%bind_ok).
  simpl. unfold key_of at 1. rewrite Hk. simpl. f_equal. exact IH.
Qed.

(** X1: when a payload parses, the value found under an hour is the price
    of the last record that has this hour; an earlier record with the same
    hour is overwritten. *)
Theorem last_record_of_an_hour_wins answer rate pre hour post m k p :
  records answer = Some (pre ++ hour :: post) ->
  parse_answer_from_ree answer rate = Ok m ->
  parsed_time_in_answer_from_ree hour = Ok k ->
  price_of hour rate = Ok p ->
  Forall (fun h => parsed_time_in_answer_from_ree h <> Ok k) post ->
  m !! k = Some p.
Proof.
  intros Hrec Hparse Hk Hp Hpost.
  rewrite (parse_with_records _ _ _ Hrec) in Hparse.
  exact (parse_hours_last _ _ _ _ _ _ _ _ Hparse Hk Hp Hpost).
Qed.

Lemma last_record_of_an_hour_wins_witness :
  exists m p,
    parse_answer_from_ree hour_given_twice (Some "GEN") = Ok m
    /\ price_of (hourly "00-01" "99,999" "70,11" "1,5") (Some "GEN") = Ok p
    /\ m !! 0 = Some p /\ size m = 2%nat.
Proof.
  destruct (parse_answer_from_ree hour_given_twice (Some "GEN")) as [m|e] eqn:E;
    [|vm_compute in E; discriminate E].
  destruct (price_of (hourly "00-01" "99,999" "70,11" "1,5") (Some "GEN"))
    as [p|e] eqn:Ep; [|vm_compute in Ep; discriminate Ep].
  exists m, p. split; [reflexivity|]. split; [reflexivity|]. split.
  - refine (last_record_of_an_hour_wins hour_given_twice (Some "GEN")
              [hourly "00-01" "123,450" "70,10" "61,25";
               hourly "01-02" "118,23" "65,02" "58,90"]
              (hourly "00-01" "99,999" "70,11" "1,5") [] m 0 p
              eq_refl E eq_refl Ep _).
    constructor.
  - vm_compute in E. injection E as <-. reflexivity.
Defined.

(** X2: when the hours of the records are pairwise different, the order of
    the records does not matter: a payload with the same records in another
    order parses to the same mapping. *)
Theorem record_order_is_irrelevant answer1 answer2 hours1 hours2 rate m :
  records answer1 = Some hours1 ->
  records answer2 = Some hours2 ->
  hours1 ≡ₚ hours2 ->
  NoDup (omap key_of hours1) ->
  parse_answer_from_ree answer1 rate = Ok m ->
  parse_answer_from_ree answer2 rate = Ok m.
Proof.
  intros H1 H2 Hperm Hnodup Hparse.
  rewrite (parse_with_records _ _ _ H1) in Hparse.
  rewrite (parse_with_records _ _ _ H2).
  apply parse_hours_entries in Hparse as (kps1 & Hall1 & ->).
  destruct (entries_permuted rate _ _ _ Hperm Hall1) as (kps2 & Hp & Hall2).
  apply parse_hours_entries. exists kps2. split; [exact Hall2|].
  f_equal. apply list_to_map_proper.
  - rewrite fmap_reverse, reverse_Permutation.
    now rewrite <- (entries_keys _ _ _ Hall1).
  - now rewrite !reverse_Permutation.
Qed.

Lemma record_order_is_irrelevant_witness :
  exists m,
    parse_answer_from_ree morning None = Ok m
    /\ parse_answer_from_ree morning_reversed None = Ok m.
Proof.
  destruct (parse_answer_from_ree morning None) as [m|e] eqn:E;
    [|vm_compute in E; discriminate E].
  exists m. split; [reflexivity|].
  refine (record_order_is_irrelevant morning morning_reversed _ _ None m
            eq_refl eq_refl _ _ E).
  - apply perm_swap.
  - change (NoDup [0; 1]). apply NoDup_cons. split; [|apply NoDup_singleton].
    intros H. inversion H as [|? ? ? H']. inversion H'.
Defined.

(** ** What a successful parse tells *)

Lemma parse_with_iterate items pvpc hours rate :
  dict_get items "PVPC" = Some pvpc -> iterate pvpc = Ok hours ->
  parse_answer_from_ree (JDict items) rate = parse_hours hours rate ∅.
Proof.
  intros Hp Hit. unfold parse_answer_from_ree, check_valid_answer, getitem.
  rewrite Hp. simpl. now rewrite Hit.
Qed.

Lemma parse_ok_hours answer rate m :
  parse_answer_from_ree answer rate = Ok m ->
  exists items pvpc hours,
    answer = JDict items /\ dict_get items "PVPC" = Some pvpc
    /\ iterate pvpc = Ok hours /\ parse_hours hours rate ∅ = Ok m.
Proof.
  unfold parse_answer_from_ree, check_valid_answer, getitem.
  destruct answer as [| | | | | |items]; try discriminate.
  destruct (dict_get items "PVPC") as [pvpc|] eqn:Hp; [|discriminate]. simpl.
  destruct (iterate pvpc) as [hours|e] eqn:Hit; [|discriminate]. simpl.
  intros H. exists items, pvpc, hours. auto.
Qed.

Lemma lstrip_length l : (length (lstrip l) <= length l)%nat.
Proof.
  induction l as [|c t IH]; simpl; [lia|].
  destruct (is_space c); simpl; lia.
Qed.

Lemma strip_length l : (length (strip l) <= length l)%nat.
Proof.
  unfold strip. rewrite length_rev.
  etransitivity; [apply lstrip_length|]. rewrite length_rev.
  apply lstrip_length.
Qed.

(** An integer written with at most two characters. *)
Lemma int_of_chars_short l k :
  (length l <= 2)%nat -> int_of_chars l = Some k -> -9 <= k <= 99.
Proof.
  intros Hlen. pose proof (strip_length l) as Hs. unfold int_of_chars.
  destruct (strip l) as [|a [|b [|c t]]]; simpl in Hs; [| | |lia];
    unfold take_sign.
  - discriminate.
  - destruct (Ascii.eqb a "-"); [discriminate|].
    destruct (Ascii.eqb a "+"); [discriminate|].
    destruct (is_digit a) eqn:Ha; [|discriminate]. simpl. intros [= <-].
    pose proof (digit_value_range a Ha). lia.
  - destruct (Ascii.eqb a "-"); [|destruct (Ascii.eqb a "+")].
    + destruct (is_digit b) eqn:Hb; [|discriminate]. simpl. intros [= <-].
      pose proof (digit_value_range b Hb). lia.
    + destruct (is_digit b) eqn:Hb; [|discriminate]. simpl. intros [= <-].
      pose proof (digit_value_range b Hb). lia.
    + destruct (is_digit a) eqn:Ha; [|discriminate]. simpl.
      destruct (is_digit b) eqn:Hb.
      * intros [= <-]. pose proof (digit_value_range a Ha).
        pose proof (digit_value_range b Hb). lia.
      * destruct (Ascii.eqb b "_"); discriminate.
Qed.

Lemma substring_2_length s : (length (chars (substring 0 2 s)) <= 2)%nat.
Proof.
  destruct s as [|a [|b t]]; simpl; try lia.
  replace (substring 0 0 t) with EmptyString by (now destruct t). simpl. lia.
Qed.

(** X3: whatever the payload and the rate, when [parse_answer_from_ree]
    returns a mapping, every key of it lies between -9 and 99: a key is
    read from at most two characters of a label, and no range is checked
    beyond that. *)
Theorem keys_have_two_characters answer rate m :
  parse_answer_from_ree answer rate = Ok m ->
  forall k, k ∈ dom m -> -9 <= k <= 99.
Proof.
  intros (items & pvpc & hours & _ & _ & _ & Hm)%parse_ok_hours k
         [p Hp]%elem_of_dom.
  destruct (parse_hours_lookup _ _ _ _ _ _ Hm Hp)
    as [Hempty | (hour & _ & Hk & _)].
  { rewrite lookup_empty in Hempty. discriminate. }
  apply time_of_label in Hk as (s & _ & Hk). unfold int_of_str in Hk.
  destruct (int_of_chars (chars (substring 0 2 s))) as [n|] eqn:Hn;
    [|discriminate].
  injection Hk as ->.
  exact (int_of_chars_short _ _ (substring_2_length s) Hn).
Qed.

Lemma keys_have_two_characters_witness :
  exists m,
    parse_answer_from_ree odd_labels None = Ok m
    /\ dom m = {[ -9; 7 ]}
    /\ forall k, k ∈ dom m -> -9 <= k <= 99.
Proof.
  destruct (parse_answer_from_ree odd_labels None) as [m|e] eqn:E;
    [|vm_compute in E; discriminate E].
  exists m. split; [reflexivity|]. split.
  - vm_compute in E. injection E as <-. reflexivity.
  - exact (keys_have_two_characters odd_labels None m E).
Defined.

(** ** When the loop gets through *)

Lemma all_rates_readable fields rates :
  (forall a, a ∈ rates ->
     exists s x, dict_get fields a = Some (JStr s)
                 /\ float_of_str (replace "," "." s) = Ok x) ->
  exists d, all_rates (JDict fields) rates = Ok d.
Proof.
  induction rates as [|a rest IH]; intros H; simpl; [eauto|].
  destruct (H a) as (s & x & Hs & Hx); [apply list_elem_of_here|].
  destruct IH as (d & Hd).
  { intros b Hb. apply H. now apply list_elem_of_further. }
  rewrite Hs. simpl. rewrite Hx. simpl. rewrite Hd. simpl. eauto.
Qed.

Lemma price_float_string s x :
  price_from_ree_into_float (JStr s) = Ok x ->
  exists y, float_of_str (replace "," "." s) = Ok y.
Proof.
  simpl. destruct (float_of_str (replace "," "." s)); [eauto|discriminate].
Qed.

Lemma entry_readable rate hour :
  (exists kp, entry_of rate hour = Ok kp) <-> readable rate hour.
Proof.
  split.
  - intros ([k p] & (p' & Hp & (k' & Hk & [= -> ->])%bind_ok)%bind_ok).
    apply time_of_label in Hk as (label & Hl & Hk).
    destruct hour as [| | | | | |fields]; try discriminate.
    exists fields, label, k. split; [reflexivity|].
    split.
    { simpl in Hl.
      destruct (dict_get fields "Hora") as [[| | | |s| |]|]; try discriminate.
      now injection Hl as ->. }
    split; [exact Hk|].
    intros a Ha. destruct rate as [r|]; simpl in Ha.
    + apply list_elem_of_singleton in Ha as ->.
      destruct (price_of_one _ _ _ Hp) as (s & x & Hs & Hx & _).
      simpl in Hs. destruct (dict_get fields r) as [v|]; [|discriminate].
      injection Hs as ->. destruct (price_float_string s x Hx) as [y Hy]. eauto.
    + destruct (price_of_all _ _ Hp) as (d & _ & _ & Hget).
      destruct (Hget a Ha) as (s & x & Hs & Hx & _).
      simpl in Hs. destruct (dict_get fields a) as [v|]; [|discriminate].
      injection Hs as ->. destruct (price_float_string s x Hx) as [y Hy]. eauto.
  - intros (fields & label & k & -> & Hl & Hk & Hprices).
    assert (Ht : parsed_time_in_answer_from_ree (JDict fields) = Ok k).
    { apply time_of_label. exists label. simpl. now rewrite Hl. }
    unfold entry_of. destruct rate as [r|].
    + destruct (Hprices r) as (s & x & Hs & Hx); [apply list_elem_of_here|].
      unfold price_of, getitem. rewrite Hs. simpl. rewrite Hx. simpl.
      rewrite Ht. simpl. eauto.
    + destruct (all_rates_readable fields AVAILABLE_RATES Hprices) as (d & Hd).
      unfold price_of. rewrite Hd. simpl. rewrite Ht. simpl. eauto.
Qed.

(** X4: for a payload whose ['PVPC'] is a list, [parse_answer_from_ree]
    returns a mapping exactly when every record is an object with a string
    label whose first two characters read as an integer and, for each
    needed rate, a string price that reads as a float once its commas are
    points; otherwise it raises. *)
Theorem parses_iff_records_readable answer rate hours :
  records answer = Some hours ->
  (exists m, parse_answer_from_ree answer rate = Ok m)
  <-> Forall (readable rate) hours.
Proof.
  intros Hrec. rewrite (parse_with_records _ _ _ Hrec). clear Hrec. split.
  - intros (m & (kps & Hall & _)%parse_hours_entries).
    induction Hall as [|hour kp rest kps' Hkp _ IH]; [constructor|].
    constructor; [|exact IH]. apply entry_readable. eauto.
  - intros Hall. generalize (∅ : gmap Z price).
    induction Hall as [|hour rest Hr _ IH]; intros acc; simpl; [eauto|].
    apply entry_readable in Hr as ([k p] & Hkp).
    pose proof (parse_hours_step hour rest rate acc) as Hstep.
    simpl in Hstep. rewrite Hstep, Hkp. simpl. apply IH.
Qed.

Lemma parses_iff_records_readable_witness :
  Forall (readable (Some "NOC"))
         [hourly "00-01" "123,450" "70,10" "61,25";
          hourly "01-02" "118,23" "65,02" "58,90"].
Proof.
  apply (parses_iff_records_readable morning (Some "NOC") _ eq_refl).
  destruct (parse_answer_from_ree morning (Some "NOC")) as [m|e] eqn:E;
    [eauto | vm_compute in E; discriminate E].
Defined.

(** ** One rate against all rates *)

Lemma entry_of_rate hour r k p :
  valid_rate (Some r) = true ->
  entry_of None hour = Ok (k, p) ->
  entry_of (Some r) hour = Ok (k, rate_of r p).
Proof.
  intros Hr%bool_decide_eq_true
         (p' & Hp & (k' & Hk & [= -> ->])%bind_ok)%bind_ok.
  destruct (price_of_all _ _ Hp) as (d & -> & _ & Hget).
  destruct (Hget r Hr) as (s & x & Hs & Hx & Hd).
  unfold entry_of, price_of. rewrite Hs. simpl. simpl in Hx. rewrite Hx.
  simpl. rewrite Hk. simpl. now rewrite Hd.
Qed.

(** X5: asking for one rate of the catalog gives the projection of what
    asking for no rate gives: when a payload parses with no rate, it parses
    with the rate too, to the mapping with the same hours in which each
    dict of prices is replaced by its price for that rate. *)
Theorem one_rate_is_projection answer r m :
  valid_rate (Some r) = true ->
  parse_answer_from_ree answer None = Ok m ->
  parse_answer_from_ree answer (Some r) = Ok (rate_of r <$> m)
  /\ forall k p, m !! k = Some p ->
       exists d x, p = Prices d /\ d !! r = Some x
                   /\ (rate_of r <$> m) !! k = Some (Price x).
Proof.
  intros Hr Hparse.
  destruct (parse_ok_hours _ _ _ Hparse)
    as (items & pvpc & hours & -> & Hp & Hit & Hm).
  split.
  - rewrite (parse_with_iterate _ _ _ _ Hp Hit).
    apply parse_hours_entries in Hm as (kps & Hall & ->).
    apply parse_hours_entries. exists (prod_map id (rate_of r) <$> kps).
    split.
    + clear Hparse Hit. induction Hall as [|hour [k p] rest kps' Hkp _ IH];
        [constructor|].
      constructor; [|exact IH]. now apply entry_of_rate.
    + rewrite !(right_id_L ∅ (∪)), <- fmap_reverse.
      symmetry. apply list_to_map_fmap.
  - intros k p Hlook.
    destruct (parse_hours_lookup _ _ _ _ _ _ Hm Hlook)
      as [Hempty | (hour & _ & _ & Hprice)].
    { rewrite lookup_empty in Hempty. discriminate. }
    destruct (price_of_all _ _ Hprice) as (d & -> & _ & Hget).
    apply bool_decide_eq_true in Hr.
    destruct (Hget r Hr) as (s & x & _ & _ & Hd).
    exists d, x. split; [reflexivity|]. split; [exact Hd|].
    rewrite lookup_fmap, Hlook. simpl. now rewrite Hd.
Qed.

Lemma one_rate_is_projection_witness :
  exists m,
    parse_answer_from_ree morning None = Ok m
    /\ parse_answer_from_ree morning (Some "VHC") = Ok (rate_of "VHC" <$> m).
Proof.
  destruct (parse_answer_from_ree morning None) as [m|e] eqn:E;
    [|vm_compute in E; discriminate E].
  exists m. split; [reflexivity|].
  exact (proj1 (one_rate_is_projection morning "VHC" m eq_refl E)).
Defined.

(** ** Price lists that are no lists *)

Lemma iterate_strings pvpc hours :
  (forall l, pvpc <> JList l) -> iterate pvpc = Ok hours ->
  Forall (fun hour => exists s, hour = JStr s) hours.
Proof.
  intros Hl. destruct pvpc as [| | | |s|l|items]; try discriminate.
  - intros [= <-]. apply Forall_forall.
    intros h (c & -> & _)%list_elem_of_fmap. eauto.
  - now destruct (Hl l).
  - intros [= <-]. apply Forall_forall.
    intros h (c & -> & _)%list_elem_of_fmap. eauto.
Qed.

(** X6: when ['PVPC'] holds something that is not a list,
    [parse_answer_from_ree] never returns prices: it returns the empty
    mapping (for an empty object or an empty string) or raises a
    [TypeError]. *)
Theorem price_list_must_be_a_list items pvpc rate :
  dict_get items "PVPC" = Some pvpc ->
  (forall l, pvpc <> JList l) ->
  parse_answer_from_ree (JDict items) rate = Ok ∅
  \/ parse_answer_from_ree (JDict items) rate = Raise TypeError.
Proof.
  intros Hp Hl.
  destruct (iterate pvpc) as [hours|e] eqn:Hit.
  - rewrite (parse_with_iterate _ _ _ _ Hp Hit).
    pose proof (iterate_strings _ _ Hl Hit) as Hs.
    destruct Hs as [|hour rest [s ->] _]; [now left|]. right.
    destruct rate; reflexivity.
  - right. unfold parse_answer_from_ree, check_valid_answer, getitem.
    rewrite Hp. simpl.
    destruct pvpc; try discriminate Hit; reflexivity.
Qed.

Lemma price_list_must_be_a_list_witness :
  parse_answer_from_ree prices_by_hour None = Raise TypeError.
Proof.
  destruct (price_list_must_be_a_list
              [("PVPC", JDict [("00-01", JStr "123,450")])]
              (JDict [("00-01", JStr "123,450")]) None eq_refl) as [H|H].
  - discriminate.
  - vm_compute in H. discriminate H.
  - exact H.
Defined.

(** X7: [parse_answer_from_ree] does not check the rate it is given: when
    the first record is an object without a field of that name, it raises
    a [KeyError] for the rate, not the [ValueError] of
    [check_requested_rate]. *)
Theorem parser_takes_any_rate answer r fields rest :
  records answer = Some (JDict fields :: rest) ->
  dict_get fields r = None ->
  parse_answer_from_ree answer (Some r) = Raise (KeyError r).
Proof.
  intros Hrec Hnone. rewrite (parse_with_records _ _ _ Hrec).
  cbn [parse_hours price_of]. unfold getitem. now rewrite Hnone.
Qed.

Lemma parser_takes_any_rate_witness :
  parse_answer_from_ree morning (Some "gen") = Raise (KeyError "gen").
Proof.
  exact (parser_takes_any_rate morning "gen" _ _ eq_refl eq_refl).
Defined.

(** ** The request of a day *)

Lemma digit_char_value n :
  is_digit (digit_char n) = true /\ digit_value (digit_char n) = n mod 10.
Proof.
  unfold digit_char. pose proof (Z.mod_pos_bound n 10 eq_refl) as Hb.
  assert (H : n mod 10 = 0 \/ n mod 10 = 1 \/ n mod 10 = 2 \/ n mod 10 = 3
              \/ n mod 10 = 4 \/ n mod 10 = 5 \/ n mod 10 = 6
              \/ n mod 10 = 7 \/ n mod 10 = 8 \/ n mod 10 = 9) by lia.
  repeat (destruct H as [H|H]; [rewrite H; split; reflexivity|]).
  rewrite H. split; reflexivity.
Qed.

Lemma digit_char_inj a b : digit_char a = digit_char b -> a mod 10 = b mod 10.
Proof.
  intros H. rewrite <- (proj2 (digit_char_value a)), H.
  apply digit_char_value.
Qed.

(** X8: the request of a day is the fixed address with the day as its only
    parameter, and (for dates with a four-digit year) two dates give the
    same request exactly when they are moments of the same calendar day:
    the time of day is dropped, nothing else is. *)
Theorem request_is_for_the_calendar_day d1 d2 :
  four_digit_year d1 = true -> four_digit_year d2 = true ->
  url (day_request d1)
  = "https://api.esios.ree.es/archives/70/download_json"
  /\ (exists s, params (day_request d1) = [("date", s)]
                /\ String.length s = 10%nat)
  /\ (day_request d1 = day_request d2 <-> same_day d1 d2).
Proof.
  unfold four_digit_year. intros H1 H2.
  repeat (apply andb_prop in H1 as [H1 ?]).
  repeat (apply andb_prop in H2 as [H2 ?]).
  split; [reflexivity|]. split; [eexists; split; reflexivity|].
  split; [|apply same_day_request].
  intros Hreq. apply (f_equal params) in Hreq.
  unfold day_request in Hreq. cbn [params] in Hreq.
  injection Hreq as Hy1 Hy2 Hy3 Hy4 Hm1 Hm2 Hd1 Hd2.
  apply digit_char_inj in Hy1, Hy2, Hy3, Hy4, Hm1, Hm2, Hd1, Hd2.
  unfold same_day.
  revert Hy1 Hy2 Hy3 Hy4 Hm1 Hm2 Hd1 Hd2.
  Z.to_euclidean_division_equations. lia.
Qed.

Lemma request_is_for_the_calendar_day_witness :
  day_request (Datetime 2020 10 25 9 30 0 0)
  = day_request (Datetime 2020 10 25 21 45 10 0)
  /\ day_request (Datetime 2020 10 25 9 30 0 0)
     <> day_request (Datetime 2020 10 26 9 30 0 0).
Proof.
  split.
  - apply (request_is_for_the_calendar_day (Datetime 2020 10 25 9 30 0 0)
             (Datetime 2020 10 25 21 45 10 0) eq_refl eq_refl).
    repeat split.
  - intros H.
    apply (request_is_for_the_calendar_day (Datetime 2020 10 25 9 30 0 0)
             (Datetime 2020 10 26 9 30 0 0) eq_refl eq_refl) in H.
    destruct H as (_ & _ & H). discriminate H.
Defined.

(** ** What the entry points do to the world *)

Lemma get_day_prices_invalid date rate w :
  valid_rate rate = false ->
  exists r,
    rate = Some r
    /\ get_day_prices date rate w
       = (Raise (ValueError (Message ("The rate " +:+ r +:+ " is not valid"))),
          w).
Proof.
  destruct rate as [r|]; [|discriminate]. simpl. intros Hr.
  exists r. split; [reflexivity|].
  unfold get_day_prices, check_requested_rate. now rewrite Hr.
Qed.

(** X9: a call of [get_day_prices] or [get_today_prices] sends one request,
    that of the day, when the rate is valid, and none otherwise; the
    requests sent before stay in the log, and nothing else of the world
    changes. *)
Theorem one_request_at_most date rate w :
  let after := snd (get_day_prices date rate w) in
  let after_today := snd (get_today_prices rate w) in
  today after = today w /\ server after = server w
  /\ sent after
     = sent w ++ (if valid_rate rate then [day_request date] else [])
  /\ sent after_today
     = sent w ++ (if valid_rate rate then [day_request (today w)] else []).
Proof.
  assert (H : forall d,
             let after := snd (get_day_prices d rate w) in
             today after = today w /\ server after = server w
             /\ sent after
                = sent w ++ (if valid_rate rate then [day_request d] else [])).
  { intros d. destruct (valid_rate rate) eqn:Hr.
    - rewrite (get_day_prices_sent d rate w Hr). simpl. auto.
    - destruct (get_day_prices_invalid d rate w Hr) as (r & _ & ->). simpl.
      now rewrite app_nil_r. }
  simpl. destruct (H date) as (H1 & H2 & H3). repeat split; try assumption.
  unfold get_today_prices. apply (H (today w)).
Qed.

(** X10: [get_day_prices] never returns [True], and it returns [False]
    exactly when the rate is valid and the network answers the request of
    the day with a status other than 200. *)
Theorem false_means_another_status date rate w b :
  fst (get_day_prices date rate w) = Ok (Boolean b)
  <-> b = false /\ valid_rate rate = true
      /\ exists ans, server w (day_request date) = Ok ans
                      /\ status_code ans <> 200.
Proof.
  destruct (valid_rate rate) eqn:Hr.
  - rewrite (get_day_prices_sent date rate w Hr). simpl.
    destruct (server w (day_request date)) as [ans|e].
    + destruct (status_code ans =? 200) eqn:Hs.
      * apply Z.eqb_eq in Hs. split.
        -- intros (j & _ & (m & _ & [=])%bind_ok)%bind_ok.
        -- intros (_ & _ & ans' & [= <-] & Hne). contradiction.
      * apply Z.eqb_neq in Hs. split.
        -- intros [= <-]. eauto.
        -- now intros (-> & _).
    + split; [discriminate|]. intros (_ & _ & ans & [=] & _).
  - destruct (get_day_prices_invalid date rate w Hr) as (r & _ & ->). simpl.
    split; [discriminate|]. intros (_ & [=] & _).
Qed.

(** X11: with a valid rate, what goes wrong after the rate check is raised
    to the caller and not turned into [False]: the exception of a request
    that got no response, the exception of a body with status 200 that
    does not decode, and [DateError] for a decoded object with status 200
    and no ['PVPC'] field. *)
Theorem failures_are_raised date rate w :
  valid_rate rate = true ->
  (forall e,
     server w (day_request date) = Raise e ->
     fst (get_day_prices date rate w) = Raise e)
  /\ (forall ans e,
        server w (day_request date) = Ok ans -> status_code ans = 200 ->
        body_json ans = Raise e ->
        fst (get_day_prices date rate w) = Raise e)
  /\ (forall ans items,
        server w (day_request date) = Ok ans -> status_code ans = 200 ->
        body_json ans = Ok (JDict items) -> dict_get items "PVPC" = None ->
        fst (get_day_prices date rate w) = Raise DateError).
Proof.
  intros Hr. rewrite (get_day_prices_sent date rate w Hr). simpl.
  split; [|split].
  - now intros e ->.
  - intros ans e -> -> ->. reflexivity.
  - intros ans items -> -> -> Hnone. simpl.
    unfold parse_answer_from_ree, check_valid_answer, getitem.
    now rewrite Hnone.
Qed.

Lemma failures_are_raised_witness :
  fst (get_day_prices (Datetime 2020 10 27 0 0 0 0) (Some "GEN")
         (World (Datetime 2020 10 25 9 30 0 0)
                (fun _ => Ok (Response 200 (Ok no_prices))) []))
  = Raise DateError.
Proof.
  refine (proj2 (proj2 (failures_are_raised (Datetime 2020 10 27 0 0 0 0)
                          (Some "GEN")
                          (World (Datetime 2020 10 25 9 30 0 0)
                                 (fun _ => Ok (Response 200 (Ok no_prices)))
                                 [])
                          eq_refl))
            (Response 200 (Ok no_prices)) _ eq_refl eq_refl eq_refl eq_refl).
Defined.

(** ** Prices that are no strings, and a whole call *)

(** X12: a price must be a string: when the records before are read
    without error and a record holds something else than a string (a
    number, say) under the rate asked for, [parse_answer_from_ree] raises
    an [AttributeError]. *)
Theorem price_must_be_a_string answer r pre fields post v :
  records answer = Some (pre ++ JDict fields :: post) ->
  Forall (readable (Some r)) pre ->
  dict_get fields r = Some v ->
  (forall s, v <> JStr s) ->
  parse_answer_from_ree answer (Some r) = Raise AttributeError.
Proof.
  intros Hrec Hpre Hv Hstr. rewrite (parse_with_records _ _ _ Hrec).
  apply parse_hours_raise.
  - eapply Forall_impl; [exact Hpre|]. intros h Hh.
    apply entry_readable in Hh as ([k p] & Hkp). unfold entry_of in Hkp.
    apply bind_ok in Hkp as (p' & Hp & (k' & Hk & [= -> ->])%bind_ok). eauto.
  - unfold price_of, getitem. rewrite Hv. simpl.
    destruct v; try reflexivity. now destruct (Hstr s).
Qed.

Lemma price_must_be_a_string_witness :
  parse_answer_from_ree numeric_prices (Some "NOC") = Raise AttributeError.
Proof.
  refine (price_must_be_a_string numeric_prices "NOC"
            [hourly "00-01" "123,450" "70,10" "61,25"]
            [("Hora", JStr "01-02"); ("GEN", JInt 118); ("NOC", JInt 65);
             ("VHC", JInt 59)] [] (JInt 65) eq_refl _ eq_refl _).
  - constructor; [|constructor].
    apply entry_readable.
    destruct (entry_of (Some "NOC") (hourly "00-01" "123,450" "70,10" "61,25"))
      as [kp|e] eqn:E; [eauto | vm_compute in E; discriminate E].
  - discriminate.
Defined.

(** X13: a whole call: with a valid rate, when the network answers the
    request of the day with status 200 and a well-formed payload,
    [get_day_prices] returns a mapping (it neither raises nor returns
    [False]) whose keys are the integers read from the hour labels of the
    payload. *)
Theorem well_formed_day_is_returned date rate w ans answer :
  valid_rate rate = true ->
  server w (day_request date) = Ok ans ->
  status_code ans = 200 ->
  body_json ans = Ok answer ->
  well_formed answer = true ->
  exists m,
    get_day_prices date rate w
    = (Ok (Mapping m),
       World (today w) (server w) (sent w ++ [day_request date]))
    /\ parse_answer_from_ree answer rate = Ok m
    /\ dom m = list_to_set (omap label_hour (hour_labels answer)).
Proof.
  intros Hr Hans Hs Hbody Hwf.
  destruct (well_formed_dom answer rate Hwf Hr)
    as (m & Hparse & _ & _ & Hdom & _).
  exists m. rewrite (get_day_prices_sent date rate w Hr), Hans, Hs, Hbody.
  simpl. rewrite Hparse. auto.
Qed.

Lemma well_formed_day_is_returned_witness :
  exists m,
    fst (get_today_prices (Some "GEN") oct_25_morning) = Ok (Mapping m)
    /\ dom m = list_to_set (omap label_hour (hour_labels morning)).
Proof.
  destruct (well_formed_day_is_returned (today oct_25_morning) (Some "GEN")
              oct_25_morning (Response 200 (Ok morning)) morning
              eq_refl eq_refl eq_refl eq_refl eq_refl)
    as (m & Hcall & _ & Hdom).
  exists m. split; [|exact Hdom].
  unfold get_today_prices. now rewrite Hcall.
Defined.
